(** * tinydb: the page store of [tinydb.cpp]

    A shallow embedding of the [StorageManager] class of [tinydb.cpp], of the
    [std::fstream] operations it calls, and of the packed on-disk structures
    and layout constants, followed by the properties of the page store.

    - 32-bit unsigned integers are [Z] with the wrap-around written out.
    - A file is the list of its bytes; the file system maps paths to files.
    - [std::fstream] is a record: the path of the associated file (if any),
      the file position, and the three [iostate] bits.  The stream buffer is
      write-through: [write] transfers the bytes to the file at once, so that
      [flush] has nothing left to transfer.
    - The operating system may fail any request.  Which requests fail is a
      script carried by the world: each request issued to the operating
      system consumes one entry; an exhausted script means no more failures.
      A write that fails may have transferred a part of its bytes, and what
      has reached the file stays there; a read that fails delivers nothing.
    - The stream operations follow libstdc++: the sentry of an output
      function gives a stream with [badbit] also [failbit], and [seekp],
      [write] and [flush] build one. *)

From stdpp Require Import gmap strings list.
From Stdlib Require Import ZArith Lia.
From Stdlib Require Import Init.Byte Strings.Byte.
From Stdlib Require Import Ascii DecimalString.

Open Scope Z_scope.

(* ------------------------------------------------------------------------- *)
(** ** Compile-time constants and enumerations *)
(* ------------------------------------------------------------------------- *)

Definition PAGE_SIZE : Z := 4096.
Definition MAGIC_NUMBER : Z := 0x12345678.
Definition MAX_IDENTIFIER_LENGTH : Z := 64.
Definition MAX_COLUMNS : Z := 32.

(** Arithmetic on [uint32_t] wraps modulo 2^32. *)
Definition u32 (z : Z) : Z := z mod 2 ^ 32.

Inductive ErrorCode : Type :=
  | SUCCESS
  | FILE_IO_ERROR
  | PAGE_ALLOCATION_FAILURE
  | INVALID_INPUT
  | OUT_OF_MEMORY.

Definition ErrorCode_value (e : ErrorCode) : Z :=
  match e with
  | SUCCESS => 0
  | FILE_IO_ERROR => 1
  | PAGE_ALLOCATION_FAILURE => 2
  | INVALID_INPUT => 3
  | OUT_OF_MEMORY => 4
  end.

Global Instance ErrorCode_eq_dec : EqDecision ErrorCode.
Proof. solve_decision. Defined.

(* ------------------------------------------------------------------------- *)
(** ** On-disk structures ([#pragma pack(push, 1)]) *)
(* ------------------------------------------------------------------------- *)

Module Layout.

(** The C types the packed structures are made of. *)
#[warnings="-register-all"]
Inductive ctype : Type :=
  | uint32_t
  | char
  | array (elt : ctype) (len : Z)
  | struct (fields : list (string * ctype)).

(** [sizeof] under [pack(1)]: no padding, fields laid out back to back. *)
Fixpoint sizeof (t : ctype) : Z :=
  match t with
  | uint32_t => 4
  | char => 1
  | array elt len => len * sizeof elt
  | struct fields =>
      (fix fields_size (fs : list (string * ctype)) : Z :=
         match fs with
         | [] => 0
         | f :: fs' => sizeof (snd f) + fields_size fs'
         end) fields
  end.

Fixpoint field_type (name : string) (fs : list (string * ctype)) : option ctype :=
  match fs with
  | [] => None
  | (n, t) :: fs' => if String.eqb n name then Some t else field_type name fs'
  end.

(** Number of elements of the array member [name] of [t]. *)
Definition slots (t : ctype) (name : string) : option Z :=
  match t with
  | struct fields =>
      match field_type name fields with
      | Some (array _ len) => Some len
      | _ => None
      end
  | _ => None
  end.

Definition PageHeader : ctype :=
  struct [("pageType", uint32_t); ("nextPage", uint32_t); ("entryCount", uint32_t)].

Definition RecordHeader : ctype :=
  struct [("recordFlag", uint32_t); ("payloadSize", uint32_t);
          ("overflowPage", uint32_t)].

Definition InteriorNode : ctype :=
  struct [("header", PageHeader);
          ("keyCount", uint32_t);
          ("keys", array uint32_t MAX_COLUMNS);
          ("childPointers", array uint32_t (MAX_COLUMNS + 1))].

Definition LeafNode : ctype :=
  struct [("header", PageHeader);
          ("recordCount", uint32_t);
          ("keys", array uint32_t MAX_COLUMNS);
          ("recordOffsets", array uint32_t MAX_COLUMNS)].

Definition ColumnDefinition : ctype :=
  struct [("columnName", array char MAX_IDENTIFIER_LENGTH);
          ("dataType", uint32_t);
          ("dataSize", uint32_t)].

Definition TableMetadata : ctype :=
  struct [("tableName", array char MAX_IDENTIFIER_LENGTH);
          ("columnCount", uint32_t);
          ("rootPageNumber", uint32_t);
          ("columns", array ColumnDefinition MAX_COLUMNS)].

Definition CatalogEntry : ctype :=
  struct [("tableName", array char MAX_IDENTIFIER_LENGTH);
          ("rootPageNumber", uint32_t);
          ("columnCount", uint32_t)].

Definition SystemCatalog : ctype :=
  struct [("header", PageHeader);
          ("entryCount", uint32_t);
          ("rootPageNumber", uint32_t)].

(** B-Tree layout constants. *)
Definition KEY_PAIR_SIZE : Z := u32 (sizeof uint32_t + sizeof uint32_t).
Definition MAX_KEYS : Z :=
  u32 ((PAGE_SIZE - sizeof PageHeader - sizeof uint32_t) / KEY_PAIR_SIZE).
Definition MAX_RECORDS : Z := MAX_KEYS.
Definition MIN_KEYS : Z := u32 (MAX_KEYS / 2).

(** The layout the specification describes for an interior node: a header,
    a key count, [k] keys and [k + 1] child page numbers. *)
Definition interior_layout (k : Z) : ctype :=
  struct [("header", PageHeader);
          ("keyCount", uint32_t);
          ("keys", array uint32_t k);
          ("childPointers", array uint32_t (k + 1))].

End Layout.

(* ------------------------------------------------------------------------- *)
(** ** Bytes, byte order, files *)
(* ------------------------------------------------------------------------- *)

(** The byte order of the host decides what [memcpy] from a [uint32_t]
    object puts in a buffer. *)
Inductive endianness : Type := LittleEndian | BigEndian.

Definition byte_of_Z (z : Z) : byte :=
  default x00 (Byte.of_N (Z.to_N (z mod 256))).

Definition Z_of_byte (b : byte) : Z := Z.of_N (Byte.to_N b).

(** The four bytes of the object representation of a [uint32_t]. *)
Definition u32_bytes (e : endianness) (z : Z) : list byte :=
  let le := [byte_of_Z z; byte_of_Z (Z.shiftr z 8);
             byte_of_Z (Z.shiftr z 16); byte_of_Z (Z.shiftr z 24)] in
  match e with
  | LittleEndian => le
  | BigEndian => rev le
  end.

(** The [uint32_t] a host of byte order [e] reads from the first four bytes. *)
Definition u32_of_bytes (e : endianness) (bs : list byte) : option Z :=
  match bs with
  | b0 :: b1 :: b2 :: b3 :: _ =>
      let '(c0, c1, c2, c3) :=
        match e with
        | LittleEndian => (b0, b1, b2, b3)
        | BigEndian => (b3, b2, b1, b0)
        end in
      Some (Z.lor (Z_of_byte c0)
              (Z.lor (Z.shiftl (Z_of_byte c1) 8)
                 (Z.lor (Z.shiftl (Z_of_byte c2) 16) (Z.shiftl (Z_of_byte c3) 24))))
  | _ => None
  end.

Definition PAGE_BYTES : nat := Z.to_nat PAGE_SIZE.

(** [static const std::vector<char> zeroPage(PAGE_SIZE, 0)] *)
Definition zeroPage : list byte := replicate PAGE_BYTES x00.

(** What a file of content [c] holds after [data] is written at offset
    [off]: bytes past the old end of file and before [off] read as zero. *)
Definition pwrite (off : nat) (data c : list byte) : list byte :=
  take off (c ++ replicate (off - length c) x00) ++ data ++ drop (off + length data) c.

(** The (at most [n]) bytes a file of content [c] yields at offset [off]. *)
Definition pread (off n : nat) (c : list byte) : list byte :=
  take n (drop off c).

(** A [char*] argument is [None] when it is the null pointer, and otherwise
    the content of the array it points to. *)
Definition is_nullptr (buffer : option (list byte)) : bool :=
  match buffer with
  | None => true
  | Some _ => false
  end.

(** [memcpy(dst, src, |src|)]: the front of [dst] is overwritten. *)
Definition memcpy (dst src : list byte) : list byte :=
  src ++ drop (length src) dst.

(* ------------------------------------------------------------------------- *)
(** ** The world, the stream, and the storage manager *)
(* ------------------------------------------------------------------------- *)

(** [std::ios_base::iostate] *)
Record iostate : Type := mk_iostate {
  badbit : bool;
  eofbit : bool;
  failbit : bool
}.

Definition goodbit : iostate := mk_iostate false false false.

Definition iostate_or (a b : iostate) : iostate :=
  mk_iostate (badbit a || badbit b) (eofbit a || eofbit b) (failbit a || failbit b).

(** [std::fstream]: [assoc] is the path of the file the stream buffer is
    associated with ([None] when the stream is not open), [fpos] the file
    position, [flags] the error state. *)
Record fstream : Type := mk_fstream {
  assoc : option string;
  fpos : Z;
  flags : iostate
}.

(** The data members of [class StorageManager]. *)
Record StorageManager : Type := mk_StorageManager {
  file : fstream;
  filename : string;
  pageCount : Z
}.

(** [StorageManager() = default] *)
Definition StorageManager_default : StorageManager :=
  mk_StorageManager (mk_fstream None 0 goodbit) "" 0.

(** What the operating system answers to a request: it carries it out, or
    it fails it.  A request to write that fails has transferred
    [transferred] bytes, fewer than it was asked for, when it fails; for the
    other requests the number means nothing. *)
Inductive answer : Type :=
  | granted
  | refused (transferred : nat).

(** The environment: the file system, and the script of the answers the
    operating system is going to give to its next requests; once the script
    is used up every request is granted. *)
Record World : Type := mk_World {
  fs : gmap string (list byte);
  faults : list answer
}.

Record State : Type := mk_State {
  self : StorageManager;
  world : World
}.

(** Member functions run in a state monad over [State]. *)
Definition M (A : Type) : Type := State -> A * State.

Definition ret {A : Type} (a : A) : M A := fun s => (a, s).

Definition bind {A B : Type} (m : M A) (k : A -> M B) : M B :=
  fun s => let (a, s') := m s in k a s'.

Notation "'let*' x ':=' m 'in' k" := (bind m (fun x => k))
  (at level 10, x name, m at level 100, k at level 200).
Notation "m '>>' k" := (bind m (fun _ => k))
  (at level 100, k at level 200, right associativity).

Definition get_file : M fstream := fun s => (file (self s), s).

Definition set_file (f : fstream) : M unit := fun s =>
  (tt, mk_State (mk_StorageManager f (filename (self s)) (pageCount (self s))) (world s)).

Definition set_filename (n : string) : M unit := fun s =>
  (tt, mk_State (mk_StorageManager (file (self s)) n (pageCount (self s))) (world s)).

Definition get_pageCount : M Z := fun s => (pageCount (self s), s).

Definition set_pageCount (n : Z) : M unit := fun s =>
  (tt, mk_State (mk_StorageManager (file (self s)) (filename (self s)) n) (world s)).

Definition get_fs : M (gmap string (list byte)) := fun s => (fs (world s), s).

Definition set_fs (m : gmap string (list byte)) : M unit := fun s =>
  (tt, mk_State (self s) (mk_World m (faults (world s)))).

(** One request to the operating system, and its answer. *)
Definition os_answer : M answer := fun s =>
  match faults (world s) with
  | [] => (granted, s)
  | a :: fl => (a, mk_State (self s) (mk_World (fs (world s)) fl))
  end.

(** One request to the operating system; [true] means that it fails. *)
Definition os_request : M bool :=
  let* a := os_answer in
  ret (match a with granted => false | refused _ => true end).

(* ------------------------------------------------------------------------- *)
(** ** [std::fstream] *)
(* ------------------------------------------------------------------------- *)

Module ios.

(** [std::ios::in | std::ios::out | std::ios::binary] opens an existing file
    for update; [std::ios::out | std::ios::binary] creates the file or
    truncates it. *)
Inductive openmode : Type := in_out_binary | out_binary.

Inductive seekdir : Type := beg | cur | end_.

Definition good (st : iostate) : bool :=
  negb (badbit st) && negb (eofbit st) && negb (failbit st).

Definition failed (st : iostate) : bool := failbit st || badbit st.

Definition only_failbit : iostate := mk_iostate false false true.
Definition only_badbit : iostate := mk_iostate true false false.
Definition eofbit_failbit : iostate := mk_iostate false true true.

Definition rdstate : M iostate :=
  let* f := get_file in ret (flags f).

Definition clear_to (st : iostate) : M unit :=
  let* f := get_file in set_file (mk_fstream (assoc f) (fpos f) st).

(** [file.clear()] *)
Definition clear : M unit := clear_to goodbit.

(** [setstate(bits)] *)
Definition setstate (bits : iostate) : M unit :=
  let* st := rdstate in clear_to (iostate_or st bits).

(** [file.fail()], [file.eof()], [file.is_open()] *)
Definition fail : M bool := let* st := rdstate in ret (failed st).
Definition eof : M bool := let* st := rdstate in ret (eofbit st).
Definition is_open : M bool :=
  let* f := get_file in ret (match assoc f with Some _ => true | None => false end).

(** [basic_filebuf::open]: fails when the buffer is already associated with
    a file, when the operating system fails the request, or when a file
    opened for update does not exist. *)
Definition filebuf_open (name : string) (mode : openmode) : M bool :=
  let* f := get_file in
  match assoc f with
  | Some _ => ret false
  | None =>
      let* failure := os_request in
      if failure then ret false else
      let* files := get_fs in
      match mode with
      | in_out_binary =>
          match files !! name with
          | Some _ => set_file (mk_fstream (Some name) 0 (flags f)) >> ret true
          | None => ret false
          end
      | out_binary =>
          set_fs (<[name := []]> files) >>
          set_file (mk_fstream (Some name) 0 (flags f)) >> ret true
      end
  end.

(** [file.open(name, mode)]: sets [failbit] on failure, clears the state on
    success. *)
Definition open (name : string) (mode : openmode) : M unit :=
  let* ok := filebuf_open name mode in
  if ok then clear else setstate only_failbit.

(** [basic_filebuf::close]: the association ends even when closing fails. *)
Definition filebuf_close : M bool :=
  let* f := get_file in
  match assoc f with
  | None => ret false
  | Some _ =>
      let* failure := os_request in
      set_file (mk_fstream None 0 (flags f)) >> ret (negb failure)
  end.

(** [file.close()] *)
Definition close : M unit :=
  let* ok := filebuf_close in
  if ok then ret tt else setstate only_failbit.

(** [rdbuf()->pubseekoff(off, dir)]: the new position, or [-1]. *)
Definition pubseekoff (off : Z) (dir : seekdir) : M Z :=
  let* f := get_file in
  match assoc f with
  | None => ret (-1)
  | Some p =>
      let* failure := os_request in
      if failure then ret (-1) else
      let* files := get_fs in
      let base :=
        match dir with
        | beg => 0
        | cur => fpos f
        | end_ => Z.of_nat (length (default [] (files !! p)))
        end in
      if base + off <? 0 then ret (-1) else
      set_file (mk_fstream (assoc f) (base + off) (flags f)) >> ret (base + off)
  end.

(** The sentry of an unformatted input function: a stream that is not good
    gets [failbit] and the function does nothing. *)
Definition istream_sentry : M bool :=
  let* st := rdstate in
  if good st then ret true else setstate only_failbit >> ret false.

(** The sentry of an output function: on a stream that is not good the
    function does nothing, and a stream with [badbit] gets [failbit] too. *)
Definition ostream_sentry : M bool :=
  let* st := rdstate in
  if good st then ret true else
  (if badbit st then setstate only_failbit else ret tt) >> ret false.

(** [file.seekp(off, dir)]: builds a sentry, then seeks unless the stream
    has failed. *)
Definition seekp (off : Z) (dir : seekdir) : M unit :=
  ostream_sentry >>
  let* st := rdstate in
  if failed st then ret tt else
  let* r := pubseekoff off dir in
  if r =? -1 then setstate only_failbit else ret tt.

(** [file.seekg(off, dir)]: clears [eofbit] first. *)
Definition seekg (off : Z) (dir : seekdir) : M unit :=
  let* st := rdstate in
  clear_to (mk_iostate (badbit st) false (failbit st)) >>
  let* ok := istream_sentry in
  if ok then
    let* r := pubseekoff off dir in
    if r =? -1 then setstate only_failbit else ret tt
  else ret tt.

(** [file.tellg()] *)
Definition tellg : M Z :=
  let* ok := istream_sentry in
  if ok then pubseekoff 0 cur else ret (-1).

(** [rdbuf()->sgetn(s, n)]: [None] when the operating system fails the
    request, otherwise the bytes obtained (fewer than [n] at end of file). *)
Definition sgetn (n : nat) : M (option (list byte)) :=
  let* f := get_file in
  match assoc f with
  | None => ret (Some [])
  | Some p =>
      let* failure := os_request in
      if failure then ret None else
      let* files := get_fs in
      let got := pread (Z.to_nat (fpos f)) n (default [] (files !! p)) in
      set_file (mk_fstream (assoc f) (fpos f + Z.of_nat (length got)) (flags f)) >>
      ret (Some got)
  end.

(** [file.read(s, n)]: returns the content of the array [s] after the call.
    A null [s] stays null. *)
Definition read (s : option (list byte)) (n : nat) : M (option (list byte)) :=
  let* ok := istream_sentry in
  if ok then
    let* r := sgetn n in
    match r with
    | None => setstate only_badbit >> ret s
    | Some got =>
        (if (length got <? n)%nat then setstate eofbit_failbit else ret tt) >>
        ret ((fun dst => memcpy dst got) <$> s)
    end
  else ret s.

(** The bytes [data] reach the file [p] at the file position, which moves
    past them. *)
Definition transfer (p : string) (data : list byte) : M nat :=
  let* f := get_file in
  let* files := get_fs in
  set_fs (<[p := pwrite (Z.to_nat (fpos f)) data (default [] (files !! p))]> files) >>
  set_file (mk_fstream (assoc f) (fpos f + Z.of_nat (length data)) (flags f)) >>
  ret (length data).

(** [rdbuf()->sputn(s, n)]: the number of bytes transferred.  The bytes go
    straight to the file: all [n] of them when the operating system carries
    the request out, and the first [k], fewer than [n], when the request
    fails after [k] bytes; nothing is taken back. *)
Definition sputn (s : list byte) (n : nat) : M nat :=
  let* f := get_file in
  match assoc f with
  | None => ret 0%nat
  | Some p =>
      let* a := os_answer in
      match a with
      | granted => transfer p (take n s)
      | refused k =>
          match take (Nat.min k (Nat.pred n)) s with
          | [] => ret 0%nat
          | data => transfer p data
          end
      end
  end.

(** [file.write(s, n)]: [badbit] when fewer than [n] bytes are transferred.
    The array [s] must hold [n] bytes; a null [s] is handled as an empty
    array. *)
Definition write (s : option (list byte)) (n : nat) : M unit :=
  let* ok := ostream_sentry in
  if ok then
    let* k := sputn (default [] s) n in
    if (k =? n)%nat then ret tt else setstate only_badbit
  else ret tt.

(** [file.flush()]: builds a sentry; nothing is pending in the buffer. *)
Definition flush : M unit := ostream_sentry >> ret tt.

End ios.

(* ------------------------------------------------------------------------- *)
(** ** [class StorageManager] *)
(* ------------------------------------------------------------------------- *)

Section StorageManager.

(** The byte order of the machine the program runs on. *)
Variable host_order : endianness.

(** Writes [buffer] to page [pageNumber]. *)
Definition writePage (pageNumber : Z) (buffer : option (list byte)) : M ErrorCode :=
  let* opened := ios.is_open in
  if negb opened || is_nullptr buffer then ret INVALID_INPUT else
  let* count := get_pageCount in
  if count <=? pageNumber then ret INVALID_INPUT else
  ios.seekp (u32 (pageNumber * PAGE_SIZE)) ios.beg >>
  let* failure := ios.fail in
  if failure then ret FILE_IO_ERROR else
  ios.write buffer PAGE_BYTES >>
  let* failure := ios.fail in
  if failure then ret FILE_IO_ERROR else
  ios.flush >>
  ret SUCCESS.

Definition writeZeroPage (pageNumber : Z) : M ErrorCode :=
  writePage pageNumber (Some zeroPage).

(** The first page of a fresh file: [char header[PAGE_SIZE] = {0}] with the
    object representation of [MAGIC_NUMBER] copied to its front. *)
Definition header_page : list byte :=
  memcpy (replicate PAGE_BYTES x00) (u32_bytes host_order MAGIC_NUMBER).

Definition open (fname : string) : M ErrorCode :=
  set_filename fname >>
  ios.open fname ios.in_out_binary >>
  let* opened := ios.is_open in
  if negb opened then
    ios.clear >>
    ios.open fname ios.out_binary >>
    let* opened := ios.is_open in
    if negb opened then ret FILE_IO_ERROR else
    ios.close >>
    ios.open fname ios.in_out_binary >>
    let* opened := ios.is_open in
    if negb opened then ret FILE_IO_ERROR else
    set_pageCount 1 >>
    ios.seekp 0 ios.beg >>
    ios.write (Some header_page) PAGE_BYTES >>
    ios.flush >>
    ret SUCCESS
  else
    ios.seekg 0 ios.end_ >>
    let* fileSize := ios.tellg in
    if negb (Z.rem fileSize PAGE_SIZE =? 0) then ret FILE_IO_ERROR else
    set_pageCount (u32 (Z.quot fileSize PAGE_SIZE)) >>
    ret SUCCESS.

Definition close : M ErrorCode :=
  let* opened := ios.is_open in
  (if opened then ios.close else ret tt) >>
  ret SUCCESS.

(** Returns the error code and the content of the caller's buffer after the
    call. *)
Definition readPage (pageNumber : Z) (buffer : option (list byte))
  : M (ErrorCode * option (list byte)) :=
  let* opened := ios.is_open in
  if negb opened || is_nullptr buffer then ret (INVALID_INPUT, buffer) else
  let* count := get_pageCount in
  if count <=? pageNumber then ret (INVALID_INPUT, buffer) else
  ios.seekg (u32 (pageNumber * PAGE_SIZE)) ios.beg >>
  let* failure := ios.fail in
  if failure then ret (FILE_IO_ERROR, buffer) else
  let* buffer' := ios.read buffer PAGE_BYTES in
  let* failure := ios.fail in
  let* at_eof := ios.eof in
  if failure && negb at_eof then ret (FILE_IO_ERROR, buffer') else
  ret (SUCCESS, buffer').

(** [pageNumber] is passed by reference: the function takes the value the
    caller's variable holds and returns the value it holds afterwards. *)
Definition allocatePage (pageNumber : Z) : M (ErrorCode * Z) :=
  let* opened := ios.is_open in
  if negb opened then ret (FILE_IO_ERROR, pageNumber) else
  let* count := get_pageCount in
  let pageNumber := count in
  set_pageCount (u32 (count + 1)) >>
  let* rc := writeZeroPage pageNumber in
  ret (rc, pageNumber).

Definition freePage (pageNumber : Z) : M ErrorCode :=
  let* opened := ios.is_open in
  if negb opened then ret FILE_IO_ERROR else
  let* count := get_pageCount in
  if count <=? pageNumber then ret INVALID_INPUT else
  ret SUCCESS.

Definition getPageCount : M Z := get_pageCount.

End StorageManager.

(* ------------------------------------------------------------------------- *)
(** ** States, invariants and runs used by the statements *)
(* ------------------------------------------------------------------------- *)

(** A state whose stream is open on [p], in explicit form. *)
Definition open_state (p : string) (pos : Z) (st : iostate) (fn : string)
    (pc : Z) (files : gmap string (list byte)) (fl : list answer) : State :=
  mk_State (mk_StorageManager (mk_fstream (Some p) pos st) fn pc)
    (mk_World files fl).

(** A default-constructed manager in a world with the given files where no
    request is going to fail. *)
Definition fresh_manager (files : gmap string (list byte)) : State :=
  mk_State StorageManager_default (mk_World files []).

(** The size in bytes of the file the stream is open on. *)
Definition file_size (s : State) : Z :=
  match assoc (file (self s)) with
  | Some p => Z.of_nat (length (default [] (fs (world s) !! p)))
  | None => 0
  end.

(** The file offset [readPage] and [writePage] compute for a page number:
    [pageNumber * PAGE_SIZE] in [uint32_t] arithmetic. *)
Definition page_offset (n : Z) : Z := u32 (n * PAGE_SIZE).

(** The condition under which [readPage] and [writePage] refuse a call: the
    handle is closed, the buffer is null, or the page is out of range. *)
Definition guard_fails (n : Z) (buffer : option (list byte)) (s : State) : Prop :=
  assoc (file (self s)) = None \/ buffer = None \/ pageCount (self s) <= n.

(** The next two requests to the operating system succeed. *)
Definition two_requests_ok (fl : list answer) : Prop :=
  hd granted fl = granted /\ hd granted (tl fl) = granted.

(** The stream state after a read that the operating system does not fail:
    a read cut short by the end of the file leaves [eofbit] and [failbit]. *)
Definition after_read (got : list byte) : iostate :=
  if (length got <? PAGE_BYTES)%nat then ios.eofbit_failbit else goodbit.

(** The store is in order: the stream is open on a file and good, the file
    holds exactly [pageCount] pages, and no request is going to fail. *)
Definition store_ok (s : State) : Prop :=
  exists p c,
    assoc (file (self s)) = Some p /\
    flags (file (self s)) = goodbit /\
    fs (world s) !! p = Some c /\
    Z.of_nat (length c) = PAGE_SIZE * pageCount (self s) /\
    0 <= pageCount (self s) < 2 ^ 32 /\
    faults (world s) = [].

(** The store is in order, with room for [k] more pages below 4 GiB. *)
Definition in_order (k : Z) (s : State) : Prop :=
  store_ok s /\ 0 <= k /\ pageCount (self s) + k <= 2 ^ 20.

(** The calls of the public interface of the page store. *)
Inductive call : Type :=
  | call_open (fname : string)
  | call_readPage (pageNumber : Z) (buffer : option (list byte))
  | call_writePage (pageNumber : Z) (buffer : option (list byte))
  | call_allocatePage
  | call_freePage (pageNumber : Z).

Definition do_call (e : endianness) (c : call) : M ErrorCode :=
  match c with
  | call_open fname => open e fname
  | call_readPage n buffer => let* r := readPage n buffer in ret (fst r)
  | call_writePage n buffer => writePage n buffer
  | call_allocatePage => let* r := allocatePage 0 in ret (fst r)
  | call_freePage n => freePage n
  end.

(** The state after a sequence of calls, whatever they return. *)
Fixpoint do_calls (e : endianness) (cs : list call) (s : State) : State :=
  match cs with
  | [] => s
  | c :: cs' => do_calls e cs' (snd (do_call e c s))
  end.

(** The calls made on a store once it is open: page numbers are unsigned,
    and a buffer passed to [writePage] holds a page. *)
Definition page_call (c : call) : Prop :=
  match c with
  | call_open _ => False
  | call_readPage n _ => 0 <= n
  | call_writePage n buffer =>
      0 <= n /\ forall b, buffer = Some b -> Z.of_nat (length b) = PAGE_SIZE
  | call_allocatePage => True
  | call_freePage _ => True
  end.

(** The number of [allocatePage] calls in a sequence of calls. *)
Fixpoint allocations (cs : list call) : Z :=
  match cs with
  | [] => 0
  | call_allocatePage :: cs' => 1 + allocations cs'
  | _ :: cs' => allocations cs'
  end.

(** [n] allocations in a row: the error codes and page numbers returned,
    and the page count after each call. *)
Fixpoint allocate_n (n : nat) (s : State) : list (ErrorCode * Z * Z) * State :=
  match n with
  | O => ([], s)
  | S n' =>
      let '((rc, page), s1) := allocatePage 0 s in
      let '(rest, s2) := allocate_n n' s1 in
      ((rc, page, pageCount (self s1)) :: rest, s2)
  end.

(** *** Concrete stores *)

(** The end-to-end scenario of the specification: a new [db.dat], one page
    allocated, and the pattern [0xAA] for page 1. *)
Definition scenario_store : State :=
  snd (allocatePage 0 (snd (open LittleEndian "db.dat" (fresh_manager ∅)))).

Definition pattern_AA : list byte := replicate PAGE_BYTES xaa.

(** A run of calls on a store created on [db.dat]. *)
Definition sample_calls : list call :=
  [call_allocatePage; call_writePage 1 (Some pattern_AA);
   call_readPage 1 (Some zeroPage); call_freePage 1; call_readPage 5 None;
   call_writePage 2 (Some pattern_AA)].

(** An existing file of size 0. *)
Definition empty_file : gmap string (list byte) := {["e.db" := []]}.

(** A file of one byte, and a file of 4097 bytes (one page and one byte
    more): neither is a whole number of pages. *)
Definition one_byte_file : gmap string (list byte) := {["t.db" := [x2a]]}.

Definition odd_file : gmap string (list byte) := {["odd.db" := replicate 4097 x00]}.

(** The store after [open] created [a.db], [close], and a refused [open] of
    the one-byte file [t.db]: the stream is open on [t.db] and the page
    count is still the 1 of [a.db]. *)
Definition stale_count_store : State :=
  snd (open LittleEndian "t.db"
         (snd (close (snd (open LittleEndian "a.db" (fresh_manager one_byte_file)))))).

(** The store after [open] created [db.dat] and a second [open] was refused
    because the stream is already open: the stream is left with [failbit]. *)
Definition failed_stream_store : State :=
  do_calls LittleEndian [call_open "db.dat"; call_open "db.dat"] (fresh_manager ∅).

(** A store freshly created on [db.dat], in a world where the next request
    (the seek of the next write) succeeds and the one after it (the write)
    fails before a byte is transferred.  Creating the store takes six
    requests: the opening that finds no file, the creation, the closing, the
    reopening, the seek and the write of the header page. *)
Definition disk_full_store : State :=
  snd (open LittleEndian "db.dat"
         (mk_State StorageManager_default
            (mk_World ∅ (replicate 6 granted ++ [granted; refused 0])))).

(** As [disk_full_store], but the write fails after 100 bytes of the page
    have reached the file. *)
Definition torn_write_store : State :=
  snd (open LittleEndian "db.dat"
         (mk_State StorageManager_default
            (mk_World ∅ (replicate 6 granted ++ [granted; refused 100])))).

(** A file of exactly 4 GiB, that is 2^20 pages: a header page followed by
    zero bytes. *)
Definition GiB4_tail : nat := Z.to_nat (2 ^ 32 - 4096).

Definition GiB4_file : list byte := header_page LittleEndian ++ replicate GiB4_tail x00.

Definition GiB4_store : State := fresh_manager {["big.db" := GiB4_file]}.

(** A closed manager in a world that holds the one-byte file and where the
    operating system fails the first request (the opening of the existing
    file) and no other. *)
Definition refused_once : State :=
  mk_State StorageManager_default (mk_World one_byte_file [refused 0]).

(** A closed manager in a world where the one-byte file [t.db] may be
    written but not read: the operating system refuses the request that
    opens it for reading and writing, grants the request that opens it for
    writing only and the closing, and refuses to reopen it for reading and
    writing. *)
Definition write_only_file : State :=
  mk_State StorageManager_default
    (mk_World one_byte_file [refused 0; granted; granted; refused 0]).

(* ------------------------------------------------------------------------- *)
(** ** Helper utilities and the test driver *)
(* ------------------------------------------------------------------------- *)

(** [<cctype>] in the "C" locale, the one the program runs in: it never
    calls [setlocale].  The argument is an [unsigned char]. *)
Module cctype.

Definition isspace (c : ascii) : bool :=
  let n := N_of_ascii c in
  ((n =? 32) || ((9 <=? n) && (n <=? 13)))%N.

Definition islower (c : ascii) : bool :=
  let n := N_of_ascii c in ((97 <=? n) && (n <=? 122))%N.

Definition toupper (c : ascii) : ascii :=
  if islower c then ascii_of_N (N_of_ascii c - 32) else c.

End cctype.

(** [errorMessage(ErrorCode code)].  An [enum class ErrorCode : uint32_t]
    object can hold any 32-bit value, which is why the [switch] has a
    [default]: the argument is the underlying value. *)
Definition errorMessage (code : Z) : string :=
  match code with
  | 0 => "Success"
  | 1 => "File I/O error"
  | 2 => "Page allocation failure"
  | 3 => "Invalid input"
  | 4 => "Out of memory"
  | _ => "Unknown error"
  end.

(** [toUpper]: [std::transform] of the characters with [std::toupper]. *)
Definition toUpper (str : string) : string :=
  String.string_of_list_ascii (map cctype.toupper (String.list_ascii_of_string str)).

(** [str[i]] *)
Definition char_at (chars : list ascii) (i : nat) : ascii := nth i chars zero.

(** The first loop of [trim]:
    [while (start < str.size() && isspace(str[start])) ++start;]
    Every iteration adds one to [start], which stays at most [str.size()]:
    [fuel] counts the iterations left. *)
Fixpoint trim_start (chars : list ascii) (fuel start : nat) : nat :=
  match fuel with
  | O => start
  | S fuel' =>
      if (start <? length chars)%nat && cctype.isspace (char_at chars start)
      then trim_start chars fuel' (start + 1)
      else start
  end.

(** The second loop of [trim]:
    [while (end > start && isspace(str[end - 1])) --end;] *)
Fixpoint trim_end (chars : list ascii) (fuel start end_ : nat) : nat :=
  match fuel with
  | O => end_
  | S fuel' =>
      if (start <? end_)%nat && cctype.isspace (char_at chars (end_ - 1))
      then trim_end chars fuel' start (end_ - 1)
      else end_
  end.

Definition trim (str : string) : string :=
  let chars := String.list_ascii_of_string str in
  let start := trim_start chars (length chars) 0 in
  let end_ := trim_end chars (length chars) start (length chars) in
  String.string_of_list_ascii (take (end_ - start) (drop start chars)).

(** The character ['\n'], and [operator<<] for a [uint32_t]. *)
Definition newline : string := String (ascii_of_nat 10) "".

Definition decimal (n : Z) : string :=
  NilZero.string_of_uint (N.to_uint (Z.to_N n)).

(** What a run of the program leaves: the exit status, what it wrote to
    [std::cout] and to [std::cerr], and the world. *)
Record run : Type := mk_run {
  exit_status : Z;
  cout : string;
  cerr : string;
  world_after : World
}.

Section main.

Variable host_order : endianness.

(** [newPage] is declared without an initialiser: its indeterminate value
    is the parameter [newPage].  Every [return] runs the destructor of
    [storage], which calls [close]. *)
Definition main (newPage : Z) (argv : list string) (w : World) : run :=
  let dbFile :=
    match argv with
    | _ :: argv1 :: _ => argv1
    | _ => "tinydb_test.db"
    end in
  let storage := mk_State StorageManager_default w in
  let '(rc, storage) := open host_order dbFile storage in
  if negb (bool_decide (rc = SUCCESS)) then
    let cerr :=
      "Failed to open/create database '" +:+ dbFile +:+ "': " +:+
      errorMessage (ErrorCode_value rc) +:+ newline in
    let '(_, storage) := close storage in
    mk_run 1 "" cerr (world storage)
  else
  let cout := "Database file '" +:+ dbFile +:+ "' opened successfully." +:+ newline in
  let '(count, storage) := getPageCount storage in
  let cout := cout +:+ "Current page count: " +:+ decimal count +:+ newline in
  let '(rc, newPage, storage) := allocatePage newPage storage in
  if negb (bool_decide (rc = SUCCESS)) then
    let cerr :=
      "Page allocation failed: " +:+ errorMessage (ErrorCode_value rc) +:+ newline in
    let '(_, storage) := close storage in
    let '(_, storage) := close storage in
    mk_run 1 cout cerr (world storage)
  else
  let cout := cout +:+ "Allocated fresh page number: " +:+ decimal newPage +:+ newline in
  let '(count, storage) := getPageCount storage in
  let cout :=
    cout +:+ "New page count after allocation: " +:+ decimal count +:+ newline in
  let '(_, storage) := close storage in
  let cout := cout +:+ "Database closed." +:+ newline in
  let '(_, storage) := close storage in
  mk_run 0 cout "" (world storage).

(** The program run [n] times in a row with the same arguments. *)
Fixpoint main_n (n : nat) (newPage : Z) (argv : list string) (w : World) : list run :=
  match n with
  | O => []
  | S n' =>
      let r := main newPage argv w in
      r :: main_n n' newPage argv (world_after r)
  end.

End main.

(** *** Vocabulary for the statements about strings *)

(** Every character of the string is white space. *)
Definition whitespace (str : string) : Prop :=
  Forall (fun c => cctype.isspace c = true) (String.list_ascii_of_string str).

(** The string is not empty and its first (last) character is white space. *)
Definition starts_with_space (str : string) : bool :=
  match String.list_ascii_of_string str with
  | c :: _ => cctype.isspace c
  | [] => false
  end.

Definition ends_with_space (str : string) : bool :=
  match last (String.list_ascii_of_string str) with
  | Some c => cctype.isspace c
  | None => false
  end.

(** The string holds a lower-case letter. *)
Definition has_lower (str : string) : bool :=
  existsb cctype.islower (String.list_ascii_of_string str).

(** *** Vocabulary for the statements about what a call leaves alone *)

(** Every run of [m] relates the state before to the state after by [R]. *)
Definition preserves {A : Type} (R : State -> State -> Prop) (m : M A) : Prop :=
  forall s, R s (snd (m s)).

(** Every run of [m] from a state in [I] ends in a state in [I]. *)
Definition keeps {A : Type} (I : State -> Prop) (m : M A) : Prop :=
  forall s, I s -> I (snd (m s)).

(** Nothing but the stream position, the stream flags and the script of
    failures differs. *)
Definition quiet (s s' : State) : Prop :=
  fs (world s') = fs (world s) /\
  pageCount (self s') = pageCount (self s) /\
  filename (self s') = filename (self s) /\
  assoc (file (self s')) = assoc (file (self s)).

(** As [quiet], except that the file the stream is open on may differ. *)
Definition touches_open_file (s s' : State) : Prop :=
  (forall q, assoc (file (self s)) <> Some q ->
             fs (world s') !! q = fs (world s) !! q) /\
  pageCount (self s') = pageCount (self s) /\
  filename (self s') = filename (self s) /\
  assoc (file (self s')) = assoc (file (self s)).

(** As [touches_open_file], except that the page count may differ. *)
Definition touches_open_file_and_count (s s' : State) : Prop :=
  (forall q, assoc (file (self s)) <> Some q ->
             fs (world s') !! q = fs (world s) !! q) /\
  filename (self s') = filename (self s) /\
  assoc (file (self s')) = assoc (file (self s)).

(** What [file.open(name, ...)] may do: associate a closed stream with
    [name], and create or truncate the file [name]. *)
Definition opens (name : string) (s s' : State) : Prop :=
  (forall q, q <> name -> fs (world s') !! q = fs (world s) !! q) /\
  pageCount (self s') = pageCount (self s) /\
  filename (self s') = filename (self s) /\
  (assoc (file (self s')) = assoc (file (self s)) \/
   assoc (file (self s')) = Some name).

(** What [file.close()] does. *)
Definition closes (s s' : State) : Prop :=
  fs (world s') = fs (world s) /\
  pageCount (self s') = pageCount (self s) /\
  filename (self s') = filename (self s) /\
  assoc (file (self s')) = None.

(** During [open fname], from the assignment to [filename] on: the files
    other than [fname] are as in [files], the stream is closed or open on
    [fname], and [filename] is [fname]. *)
Definition opening (fname : string) (files : gmap string (list byte))
    (s : State) : Prop :=
  (forall q, q <> fname -> fs (world s) !! q = files !! q) /\
  filename (self s) = fname /\
  (assoc (file (self s)) = None \/ assoc (file (self s)) = Some fname).

(** *** Vocabulary for the statements about pages *)

(** Page [m] of a file of content [c], below 2^20 pages. *)
Definition page_of (c : list byte) (m : Z) : list byte :=
  pread (Z.to_nat (m * PAGE_SIZE)) PAGE_BYTES c.

(** A file of one page that does not start with the magic number. *)
Definition foreign_file : gmap string (list byte) := {["x.db" := pattern_AA]}.

(** A store whose page count is the largest [uint32_t]. *)
Definition full_count_store : State :=
  open_state "huge.db" 0 goodbit "huge.db" (2 ^ 32 - 1) {["huge.db" := zeroPage]} [].

(** *** Vocabulary for the statements about the program *)

(** The file the program works on: [argv[1]] when there is one. *)
Definition db_file (argv : list string) : string :=
  match argv with
  | _ :: argv1 :: _ => argv1
  | _ => "tinydb_test.db"
  end.

(** What a run that succeeds on a file of [count] pages writes to
    [std::cout]: five lines, with the page count, the page number allocated
    and the new page count. *)
Definition success_report (dbFile : string) (count : Z) : string :=
  let cout := "Database file '" +:+ dbFile +:+ "' opened successfully." +:+ newline in
  let cout := cout +:+ "Current page count: " +:+ decimal count +:+ newline in
  let cout := cout +:+ "Allocated fresh page number: " +:+ decimal count +:+ newline in
  let cout :=
    cout +:+ "New page count after allocation: " +:+ decimal (count + 1) +:+ newline in
  cout +:+ "Database closed." +:+ newline.

(** What a run writes to [std::cerr] when [open] fails. *)
Definition open_failure_report (dbFile : string) : string :=
  "Failed to open/create database '" +:+ dbFile +:+ "': File I/O error" +:+ newline.

(** [n] pages of zeros, one after the other. *)
Definition zero_pages (n : nat) : list byte := replicate (n * PAGE_BYTES) x00.

(** What the [i]-th run in a row (from 0) on a path that named no file
    leaves behind when no request fails. *)
Definition nth_run (e : endianness) (argv : list string)
    (files : gmap string (list byte)) (i : nat) : run :=
  mk_run 0 (success_report (db_file argv) (Z.of_nat i + 1)) ""
    (mk_World (<[db_file argv := header_page e ++ zero_pages (S i)]> files) []).

(** *** The compile-time checks *)

(** The four [static_assert]s on the packed structures. *)
Definition static_asserts : bool :=
  (Layout.sizeof Layout.PageHeader <=? PAGE_SIZE) &&
  (Layout.sizeof Layout.RecordHeader <=? PAGE_SIZE) &&
  (Layout.sizeof Layout.InteriorNode <=? PAGE_SIZE) &&
  (Layout.sizeof Layout.LeafNode <=? PAGE_SIZE).

(** The packed structures of the file. *)
Definition packed_structs : list Layout.ctype :=
  [Layout.PageHeader; Layout.RecordHeader; Layout.ColumnDefinition;
   Layout.TableMetadata; Layout.CatalogEntry; Layout.InteriorNode;
   Layout.LeafNode; Layout.SystemCatalog].

(* ------------------------------------------------------------------------- *)
(** ** Files as byte lists *)
(* ------------------------------------------------------------------------- *)

Lemma PAGE_BYTES_eq : Z.of_nat PAGE_BYTES = PAGE_SIZE.
Proof. reflexivity. Qed.

Lemma length_zeroPage : length zeroPage = PAGE_BYTES.
Proof. apply length_replicate. Qed.

Lemma u32_range z : 0 <= u32 z < 2 ^ 32.
Proof. unfold u32. apply Z.mod_pos_bound. lia. Qed.

Lemma u32_small z : 0 <= z < 2 ^ 32 -> u32 z = z.
Proof. intros H. unfold u32. apply Z.mod_small. exact H. Qed.

Lemma u32_le z : 0 <= z -> u32 z <= z.
Proof. intros H. unfold u32. apply Z.mod_le; lia. Qed.

Lemma pwrite_length off data c :
  length (pwrite off data c) = Nat.max (length c) (off + length data).
Proof.
  unfold pwrite.
  rewrite !length_app, length_take, length_app, length_replicate, length_drop.
  lia.
Qed.

Lemma pwrite_inside_length off data c :
  (off + length data <= length c)%nat -> length (pwrite off data c) = length c.
Proof. intros H. rewrite pwrite_length. lia. Qed.

Lemma pwrite_at_end data c : pwrite (length c) data c = c ++ data.
Proof.
  unfold pwrite.
  rewrite Nat.sub_diag. simpl replicate. rewrite app_nil_r, take_ge by lia.
  rewrite drop_ge by lia. now rewrite app_nil_r.
Qed.

Lemma pwrite_front data h r :
  length data = length h -> pwrite 0 data (h ++ r) = data ++ r.
Proof.
  intros H. unfold pwrite. rewrite take_0. simpl.
  rewrite H. now rewrite drop_app_length.
Qed.

Lemma pread_pwrite off data c :
  pread off (length data) (pwrite off data c) = data.
Proof.
  unfold pread, pwrite.
  assert (Hlen : length (take off (c ++ replicate (off - length c) x00)) = off).
  { rewrite length_take, length_app, length_replicate. lia. }
  rewrite drop_app_length' by (symmetry; exact Hlen).
  apply take_app_length.
Qed.

Lemma pread_full off n c :
  (off + n <= length c)%nat -> length (pread off n c) = n.
Proof. intros H. unfold pread. rewrite length_take, length_drop. lia. Qed.

Lemma memcpy_full dst src : length src = length dst -> memcpy dst src = src.
Proof.
  intros H. unfold memcpy. rewrite drop_ge by lia. apply app_nil_r.
Qed.

Lemma length_header_page e : length (header_page e) = PAGE_BYTES.
Proof. destruct e; vm_compute; reflexivity. Qed.

(* ------------------------------------------------------------------------- *)
(** ** Running the model symbolically *)
(* ------------------------------------------------------------------------- *)

(** Unfolds the monad, the stream operations and the member functions; the
    tests on symbolic values stay and are rewritten by the caller. *)
Ltac unfold_model :=
  cbv beta iota zeta delta
    [bind ret get_file set_file set_filename get_pageCount set_pageCount
     get_fs set_fs os_answer os_request
     ios.rdstate ios.clear_to ios.clear ios.setstate ios.fail ios.eof
     ios.is_open ios.filebuf_open ios.open ios.filebuf_close ios.close
     ios.pubseekoff ios.istream_sentry ios.ostream_sentry ios.seekp ios.seekg
     ios.tellg ios.sgetn ios.read ios.transfer ios.sputn ios.write ios.flush
     ios.good ios.failed ios.only_failbit ios.only_badbit ios.eofbit_failbit
     writePage writeZeroPage open close readPage allocatePage freePage
     getPageCount open_state
     self world file filename pageCount fs faults assoc fpos flags
     badbit eofbit failbit goodbit iostate_or is_nullptr
     negb orb andb fmap option_fmap option_map from_option id fst snd hd tl].

Ltac run_model rw := repeat (unfold_model; progress rw); unfold_model.

(** The shapes of a script whose first two entries are not failures. *)
Lemma two_requests_ok_cases fl :
  two_requests_ok fl ->
  fl = [] \/ fl = [granted] \/ exists fl', fl = granted :: granted :: fl'.
Proof.
  intros [H1 H2]. destruct fl as [|[] [|[] fl']]; simpl in *; try discriminate; eauto.
Qed.

Section page_io.

Variables (p fn : string) (pos pc : Z) (files : gmap string (list byte)).
Variables (c : list byte) (n : Z).
Hypothesis Hc : files !! p = Some c.
Hypothesis Hn : 0 <= n < pc.

Abbreviation off := (page_offset n).

Lemma guard_passes : (pc <=? n) = false.
Proof. lia. Qed.

Lemma seek_target_ok : (0 + off <? 0) = false /\ (0 + off =? -1) = false.
Proof. pose proof (u32_range (n * PAGE_SIZE)). unfold page_offset. lia. Qed.

Lemma writePage_ok b fl :
  length b = PAGE_BYTES -> two_requests_ok fl ->
  writePage n (Some b) (open_state p pos goodbit fn pc files fl) =
  (SUCCESS,
   open_state p (off + PAGE_SIZE) goodbit fn pc
     (<[p := pwrite (Z.to_nat off) b c]> files) (tl (tl fl))).
Proof.
  intros Hb Hfl.
  pose proof guard_passes as H1. destruct seek_target_ok as [H2 H3].
  assert (H4 : (length b =? PAGE_BYTES)%nat = true) by (apply Nat.eqb_eq; lia).
  assert (H5 : take PAGE_BYTES b = b) by (apply take_ge; lia).
  unfold page_offset in *.
  destruct (two_requests_ok_cases fl Hfl) as [-> | [-> | [fl' ->]]];
    run_model ltac:(rewrite ?H1, ?H2, ?H3, ?H5, ?Hc, ?H4);
    rewrite Z.add_0_l, Hb; reflexivity.
Qed.

Lemma writePage_seek_fails b k fl :
  writePage n (Some b) (open_state p pos goodbit fn pc files (refused k :: fl)) =
  (FILE_IO_ERROR, open_state p pos ios.only_failbit fn pc files fl).
Proof.
  pose proof guard_passes as H1.
  run_model ltac:(rewrite ?H1). reflexivity.
Qed.

(** A write that fails before a byte is transferred. *)
Lemma writePage_write_refused b fl :
  writePage n (Some b)
    (open_state p pos goodbit fn pc files (granted :: refused 0 :: fl)) =
  (FILE_IO_ERROR, open_state p off ios.only_badbit fn pc files fl).
Proof.
  pose proof guard_passes as H1. destruct seek_target_ok as [H2 H3].
  assert (H4 : (0 =? PAGE_BYTES)%nat = false) by reflexivity.
  assert (H5 : take (Nat.min 0 (Nat.pred PAGE_BYTES)) b = []) by reflexivity.
  unfold page_offset in *.
  run_model ltac:(rewrite ?H1, ?H2, ?H3, ?H4, ?H5). rewrite Z.add_0_l. reflexivity.
Qed.

(** A write that fails after [k] bytes of the page. *)
Lemma writePage_write_cut_short b k fl :
  length b = PAGE_BYTES -> (0 < k < PAGE_BYTES)%nat ->
  writePage n (Some b)
    (open_state p pos goodbit fn pc files (granted :: refused k :: fl)) =
  (FILE_IO_ERROR,
   open_state p (off + Z.of_nat k) ios.only_badbit fn pc
     (<[p := pwrite (Z.to_nat off) (take k b) c]> files) fl).
Proof.
  intros Hb Hk.
  pose proof guard_passes as H1. destruct seek_target_ok as [H2 H3].
  assert (Hmin : Nat.min k (Nat.pred PAGE_BYTES) = k) by lia.
  assert (Hlen : length (take k b) = k) by (rewrite length_take; lia).
  assert (H4 : (k =? PAGE_BYTES)%nat = false) by (apply Nat.eqb_neq; lia).
  unfold page_offset in *.
  destruct (take k b) as [|b0 data] eqn:Hdata; [simpl in Hlen; lia|].
  run_model ltac:(rewrite ?H1, ?H2, ?H3, ?Hmin, ?Hdata, ?Hc, ?Hlen, ?H4).
  rewrite Z.add_0_l. reflexivity.
Qed.

(** A write that fails, however many bytes of the page are transferred. *)
Lemma writePage_write_fails b k fl :
  let r := writePage n (Some b)
             (open_state p pos goodbit fn pc files (granted :: refused k :: fl)) in
  fst r = FILE_IO_ERROR /\ pageCount (self (snd r)) = pc /\
  flags (file (self (snd r))) = ios.only_badbit.
Proof.
  pose proof guard_passes as H1. destruct seek_target_ok as [H2 H3].
  assert (H4 : (0 =? PAGE_BYTES)%nat = false) by reflexivity.
  assert (H5 : forall data, data = take (Nat.min k (Nat.pred PAGE_BYTES)) b ->
                 (length data =? PAGE_BYTES)%nat = false).
  { intros data ->. apply Nat.eqb_neq. rewrite length_take.
    unfold PAGE_BYTES, PAGE_SIZE. lia. }
  unfold page_offset in *. cbv zeta.
  destruct (take (Nat.min k (Nat.pred PAGE_BYTES)) b) as [|b0 data] eqn:Hdata;
    specialize (H5 _ eq_refl);
    run_model ltac:(rewrite ?H1, ?H2, ?H3, ?Hdata, ?H4, ?H5); repeat split.
Qed.

Lemma writePage_stream_failed b st fl :
  ios.failed st = true ->
  writePage n (Some b) (open_state p pos st fn pc files fl) =
  (FILE_IO_ERROR,
   open_state p pos (mk_iostate (badbit st) (eofbit st) (failbit st || badbit st))
     fn pc files fl).
Proof.
  intros Hst. pose proof guard_passes as H1.
  destruct st as [bad e f]. unfold ios.failed in Hst. simpl in Hst.
  destruct f, bad, e; try discriminate;
    run_model ltac:(rewrite ?H1); reflexivity.
Qed.

Lemma readPage_ok b fl :
  two_requests_ok fl ->
  let got := pread (Z.to_nat off) PAGE_BYTES c in
  readPage n (Some b) (open_state p pos goodbit fn pc files fl) =
  ((SUCCESS, Some (memcpy b got)),
   open_state p (off + Z.of_nat (length got)) (after_read got) fn pc files
     (tl (tl fl))).
Proof.
  intros Hfl got.
  pose proof guard_passes as H1. destruct seek_target_ok as [H2 H3].
  assert (H0 : Z.to_nat (0 + off) = Z.to_nat off) by (now rewrite Z.add_0_l).
  unfold after_read. subst got. unfold page_offset in *.
  destruct (length (pread (Z.to_nat (u32 (n * PAGE_SIZE))) PAGE_BYTES c)
            <? PAGE_BYTES)%nat eqn:Hshort;
  destruct (two_requests_ok_cases fl Hfl) as [-> | [-> | [fl' ->]]];
    run_model ltac:(rewrite ?H1, ?H2, ?H3, ?Hc, ?H0, ?Hshort);
    rewrite Z.add_0_l; reflexivity.
Qed.

Lemma readPage_seek_fails b k fl :
  readPage n (Some b) (open_state p pos goodbit fn pc files (refused k :: fl)) =
  ((FILE_IO_ERROR, Some b), open_state p pos ios.only_failbit fn pc files fl).
Proof.
  pose proof guard_passes as H1.
  run_model ltac:(rewrite ?H1). reflexivity.
Qed.

Lemma readPage_read_fails b k fl :
  readPage n (Some b)
    (open_state p pos goodbit fn pc files (granted :: refused k :: fl)) =
  ((FILE_IO_ERROR, Some b), open_state p off ios.only_badbit fn pc files fl).
Proof.
  pose proof guard_passes as H1. destruct seek_target_ok as [H2 H3].
  unfold page_offset in *.
  run_model ltac:(rewrite ?H1, ?H2, ?H3). rewrite Z.add_0_l. reflexivity.
Qed.

Lemma readPage_stream_failed b st fl :
  ios.failed st = true ->
  readPage n (Some b) (open_state p pos st fn pc files fl) =
  ((FILE_IO_ERROR, Some b),
   open_state p pos (mk_iostate (badbit st) false true) fn pc files fl).
Proof.
  intros Hst. pose proof guard_passes as H1.
  destruct st as [bad e f]. unfold ios.failed in Hst. simpl in Hst.
  destruct f, bad, e; try discriminate;
    run_model ltac:(rewrite ?H1); reflexivity.
Qed.

End page_io.

(* ------------------------------------------------------------------------- *)
(** ** The member functions on a state in explicit form *)
(* ------------------------------------------------------------------------- *)

Lemma pwrite_first_page data : pwrite (Z.to_nat 0) data [] = data.
Proof.
  unfold pwrite. simpl. rewrite drop_nil. apply app_nil_r.
Qed.

Lemma open_creates e path pos st fn pc files :
  files !! path = None ->
  open e path
    (mk_State (mk_StorageManager (mk_fstream None pos st) fn pc) (mk_World files [])) =
  (SUCCESS, open_state path PAGE_SIZE goodbit path 1 (<[path := header_page e]> files) []).
Proof.
  intros Hnone.
  assert (H1 : (length (header_page e) =? PAGE_BYTES)%nat = true).
  { rewrite length_header_page. apply Nat.eqb_refl. }
  assert (H2 : take PAGE_BYTES (header_page e) = header_page e).
  { apply take_ge. rewrite length_header_page. lia. }
  assert (H3 : (0 + 0 <? 0) = false) by reflexivity.
  assert (H4 : (0 + 0 =? -1) = false) by reflexivity.
  run_model ltac:(rewrite ?Hnone, ?lookup_insert_eq, ?H2, ?H1, ?H3, ?H4).
  rewrite insert_insert_eq, pwrite_first_page, length_header_page.
  reflexivity.
Qed.

Lemma open_existing e path pos st fn pc files c :
  files !! path = Some c ->
  Z.of_nat (length c) mod PAGE_SIZE = 0 ->
  open e path
    (mk_State (mk_StorageManager (mk_fstream None pos st) fn pc) (mk_World files [])) =
  (SUCCESS,
   open_state path (Z.of_nat (length c)) goodbit path
     (u32 (Z.of_nat (length c) / PAGE_SIZE)) files []).
Proof.
  intros Hc Hmod.
  set (len := Z.of_nat (length c)) in *.
  assert (Hlen : 0 <= len) by (subst len; lia).
  assert (H1 : (len + 0 <? 0) = false) by lia.
  assert (H2 : (len + 0 =? -1) = false) by lia.
  assert (H3 : (len + 0 + 0 <? 0) = false) by lia.
  assert (H4 : (Z.rem (len + 0 + 0) PAGE_SIZE =? 0) = true).
  { rewrite !Z.add_0_r, Z.rem_mod_nonneg by (unfold PAGE_SIZE; lia). lia. }
  subst len.
  run_model ltac:(rewrite ?Hc, ?H1, ?H2, ?H3, ?H4).
  rewrite !Z.add_0_r, Z.quot_div_nonneg by (unfold PAGE_SIZE; lia).
  reflexivity.
Qed.

(** A file whose size is not a multiple of the page size: the stream stays
    open on it and the page count keeps its old value. *)
Lemma open_bad_size e path pos st fn pc files c :
  files !! path = Some c ->
  Z.of_nat (length c) mod PAGE_SIZE <> 0 ->
  open e path
    (mk_State (mk_StorageManager (mk_fstream None pos st) fn pc) (mk_World files [])) =
  (FILE_IO_ERROR, open_state path (Z.of_nat (length c)) goodbit path pc files []).
Proof.
  intros Hc Hmod.
  set (len := Z.of_nat (length c)) in *.
  assert (Hlen : 0 <= len) by (subst len; lia).
  assert (H1 : (len + 0 <? 0) = false) by lia.
  assert (H2 : (len + 0 =? -1) = false) by lia.
  assert (H3 : (len + 0 + 0 <? 0) = false) by lia.
  assert (H4 : (Z.rem (len + 0 + 0) PAGE_SIZE =? 0) = false).
  { rewrite !Z.add_0_r, Z.rem_mod_nonneg by (unfold PAGE_SIZE; lia). lia. }
  subst len.
  run_model ltac:(rewrite ?Hc, ?H1, ?H2, ?H3, ?H4).
  rewrite !Z.add_0_r. reflexivity.
Qed.

(** [open] on a manager whose stream is already open: the stream refuses,
    nothing is requested from the operating system, and [failbit] stays. *)
Lemma open_already_open e path p pos st fn pc files fl :
  open e path (open_state p pos st fn pc files fl) =
  (FILE_IO_ERROR,
   open_state p pos (mk_iostate (badbit st) false true) path pc files fl).
Proof.
  assert (H : (Z.rem (-1) PAGE_SIZE =? 0) = false) by reflexivity.
  destruct st as [[] [] []]; run_model ltac:(rewrite ?H); reflexivity.
Qed.

Lemma close_open_stream p pos st fn pc files :
  close (open_state p pos st fn pc files []) =
  (SUCCESS,
   mk_State (mk_StorageManager (mk_fstream None 0 st) fn pc) (mk_World files [])).
Proof. unfold_model. reflexivity. Qed.

Lemma allocatePage_ok p pos fn pc files c fl x :
  files !! p = Some c -> 0 <= pc -> pc + 1 < 2 ^ 32 -> two_requests_ok fl ->
  allocatePage x (open_state p pos goodbit fn pc files fl) =
  ((SUCCESS, pc),
   open_state p (page_offset pc + PAGE_SIZE) goodbit fn (pc + 1)
     (<[p := pwrite (Z.to_nat (page_offset pc)) zeroPage c]> files) (tl (tl fl))).
Proof.
  intros Hc Hpc Hmax Hfl.
  pose proof (writePage_ok p fn pos (pc + 1) files c pc Hc ltac:(lia)
                zeroPage fl length_zeroPage Hfl) as Hw.
  unfold allocatePage, bind, writeZeroPage.
  change (ios.is_open (open_state p pos goodbit fn pc files fl))
    with (true, open_state p pos goodbit fn pc files fl).
  cbv beta iota.
  cbv beta iota delta [negb get_pageCount set_pageCount ret
                         open_state self world file filename pageCount].
  rewrite (u32_small (pc + 1)) by lia.
  fold (open_state p pos goodbit fn (pc + 1) files fl).
  rewrite Hw. reflexivity.
Qed.

(** ** The guards of [readPage] and [writePage] *)

Lemma writePage_guard n buffer s :
  guard_fails n buffer s -> writePage n buffer s = (INVALID_INPUT, s).
Proof.
  destruct s as [[[a pos st] fn pc] [files fl]]. unfold guard_fails. simpl.
  intros H. destruct a as [p|], buffer as [b|];
    try (unfold_model; reflexivity).
  assert (H1 : (pc <=? n) = true) by (destruct H as [H | [H | H]]; try discriminate; lia).
  run_model ltac:(rewrite ?H1). reflexivity.
Qed.

Lemma readPage_guard n buffer s :
  guard_fails n buffer s -> readPage n buffer s = ((INVALID_INPUT, buffer), s).
Proof.
  destruct s as [[[a pos st] fn pc] [files fl]]. unfold guard_fails. simpl.
  intros H. destruct a as [p|], buffer as [b|];
    try (unfold_model; reflexivity).
  assert (H1 : (pc <=? n) = true) by (destruct H as [H | [H | H]]; try discriminate; lia).
  run_model ltac:(rewrite ?H1). reflexivity.
Qed.

(* ------------------------------------------------------------------------- *)
(** ** Opening a store *)
(* ------------------------------------------------------------------------- *)




Lemma open_bad_size_any_script e path pos st fn pc files c fl :
  files !! path = Some c ->
  Z.of_nat (length c) mod PAGE_SIZE <> 0 ->
  hd granted fl = granted ->
  let r := open e path
             (mk_State (mk_StorageManager (mk_fstream None pos st) fn pc)
                (mk_World files fl)) in
  fst r = FILE_IO_ERROR /\ fs (world (snd r)) = files /\
  pageCount (self (snd r)) = pc /\ assoc (file (self (snd r))) = Some path.
Proof.
  intros Hc Hmod Hfl.
  set (len := Z.of_nat (length c)) in *.
  assert (Hlen : 0 <= len) by (subst len; lia).
  assert (H1 : (len + 0 <? 0) = false) by lia.
  assert (H2 : (len + 0 =? -1) = false) by lia.
  assert (H3 : (len + 0 + 0 <? 0) = false) by lia.
  assert (H4 : (Z.rem (len + 0 + 0) PAGE_SIZE =? 0) = false).
  { rewrite !Z.add_0_r, Z.rem_mod_nonneg by (unfold PAGE_SIZE; lia). lia. }
  assert (H5 : (Z.rem (-1) PAGE_SIZE =? 0) = false) by reflexivity.
  assert (H6 : (-1 =? -1) = true) by reflexivity.
  subst len.
  destruct fl as [|[|k1] [|[|k2] [|[|k3] fl3]]]; try discriminate; intros r; subst r;
    run_model ltac:(rewrite ?Hc, ?H1, ?H2, ?H3, ?H4, ?H5, ?H6);
    repeat split; reflexivity.
Qed.

(** When the path names a file whose size is not a multiple of 4096 bytes
    and the operating system grants the request that opens it, [open]
    returns [FILE_IO_ERROR] and no file of the file system is changed; this
    holds whatever the state of the manager and whichever later requests
    fail. *)
Lemma open_rejects_partial_page (e : endianness) (path : string) (s : State)
    (c : list byte) :
  fs (world s) !! path = Some c ->
  Z.of_nat (length c) mod PAGE_SIZE <> 0 ->
  hd granted (faults (world s)) = granted ->
  fst (open e path s) = FILE_IO_ERROR /\
  fs (world (snd (open e path s))) = fs (world s).
Proof.
  destruct s as [[[a pos st] fn pc] [files fl]]. simpl.
  intros Hc Hmod Hfl. destruct a as [q|].
  - change (mk_State _ _) with (open_state q pos st fn pc files fl).
    rewrite open_already_open. split; reflexivity.
  - destruct (open_bad_size_any_script e path pos st fn pc files c fl Hc Hmod Hfl)
      as (Hr & Hfs & _).
    split; assumption.
Qed.

Lemma open_rejects_partial_page_witness :
  (fs (world (fresh_manager one_byte_file)) !! "t.db" = Some [x2a] /\
   Z.of_nat (length [x2a]) mod PAGE_SIZE <> 0 /\
   hd granted (faults (world (fresh_manager one_byte_file))) = granted) /\
  fst (open LittleEndian "t.db" (fresh_manager one_byte_file)) = FILE_IO_ERROR /\
  fs (world (snd (open LittleEndian "t.db" (fresh_manager one_byte_file)))) =
    one_byte_file.
Proof.
  assert (H : Z.of_nat (length [x2a]) mod PAGE_SIZE <> 0) by (vm_compute; discriminate).
  split; [split; [reflexivity | split; [exact H | reflexivity]]|].
  apply (open_rejects_partial_page LittleEndian "t.db"
           (fresh_manager one_byte_file) [x2a]);
    [reflexivity | exact H | reflexivity].
Defined.

(** The hypothesis on the opening request cannot be dropped: when the
    operating system fails it, [open] takes the path that creates the file,
    and the existing file is replaced by a fresh header page. *)
Lemma open_after_refused_request_recreates :
  fst (open LittleEndian "t.db" refused_once) = SUCCESS /\
  fs (world (snd (open LittleEndian "t.db" refused_once))) !! "t.db" =
    Some (header_page LittleEndian).
Proof. split; vm_compute; reflexivity. Qed.

Lemma open_write_only e path pos st fn pc files k k' :
  open e path
    (mk_State (mk_StorageManager (mk_fstream None pos st) fn pc)
       (mk_World files [refused k; granted; granted; refused k'])) =
  (FILE_IO_ERROR,
   mk_State (mk_StorageManager (mk_fstream None 0 ios.only_failbit) path pc)
     (mk_World (<[path := []]> files) [])).
Proof. unfold_model. reflexivity. Qed.

(** C5 at a file that may be written but not read.  The path names a file
    whose size is not a multiple of 4096 bytes; the operating system
    refuses to open it for reading and writing and grants opening it for
    writing only.  [open] takes a refused opening for a missing file and
    goes on to create the file: it returns [FILE_IO_ERROR], as the claim
    says, but the file is emptied, where the claim says that it is not
    modified. *)
Theorem open_empties_file_it_cannot_read (e : endianness) (path : string)
    (s : State) (c : list byte) (k k' : nat) :
  assoc (file (self s)) = None ->
  fs (world s) !! path = Some c ->
  Z.of_nat (length c) mod PAGE_SIZE <> 0 ->
  faults (world s) = [refused k; granted; granted; refused k'] ->
  fst (open e path s) = FILE_IO_ERROR /\
  fs (world (snd (open e path s))) !! path = Some [] /\
  c <> [].
Proof.
  destruct s as [[[a pos st] fn pc] [files fl]]. simpl.
  intros -> Hc Hmod ->.
  rewrite open_write_only. cbn [fst snd world fs].
  split; [reflexivity|]. split; [apply lookup_insert_eq|].
  intros ->. apply Hmod. reflexivity.
Qed.

Lemma open_empties_file_it_cannot_read_witness :
  (assoc (file (self write_only_file)) = None /\
   fs (world write_only_file) !! "t.db" = Some [x2a] /\
   Z.of_nat (length [x2a]) mod PAGE_SIZE <> 0 /\
   faults (world write_only_file) = [refused 0; granted; granted; refused 0]) /\
  fst (open LittleEndian "t.db" write_only_file) = FILE_IO_ERROR /\
  fs (world (snd (open LittleEndian "t.db" write_only_file))) !! "t.db" = Some [] /\
  [x2a] <> [].
Proof.
  assert (H : Z.of_nat (length [x2a]) mod PAGE_SIZE <> 0) by (vm_compute; discriminate).
  split; [split; [reflexivity | split; [reflexivity | split; [exact H | reflexivity]]]|].
  apply (open_empties_file_it_cannot_read LittleEndian "t.db" write_only_file [x2a] 0 0);
    [reflexivity | reflexivity | exact H | reflexivity].
Defined.

(* ------------------------------------------------------------------------- *)
(** ** Writing, closing, reopening, reading *)
(* ------------------------------------------------------------------------- *)

Lemma store_ok_explicit s p :
  store_ok s -> assoc (file (self s)) = Some p ->
  exists pos fn pc files c,
    s = open_state p pos goodbit fn pc files [] /\
    files !! p = Some c /\
    Z.of_nat (length c) = PAGE_SIZE * pc /\
    0 <= pc < 2 ^ 32.
Proof.
  destruct s as [[[a pos st] fn pc] [files fl]]. simpl.
  intros (p' & c & Ha & Hst & Hc & Hlen & Hpc & Hfl) Hp. simpl in *.
  subst. injection Hp as ->.
  exists pos, fn, pc, files, c. repeat split; auto; lia.
Qed.

(** Below the page count the computed offset plus one page stays within a
    file of [pc] pages, also when the multiplication wraps. *)
Lemma page_offset_fits n pc (c : list byte) :
  0 <= n < pc -> Z.of_nat (length c) = PAGE_SIZE * pc ->
  (Z.to_nat (page_offset n) + PAGE_BYTES <= length c)%nat.
Proof.
  intros Hn Hlen. unfold page_offset.
  pose proof (u32_range (n * PAGE_SIZE)) as Hr.
  pose proof (u32_le (n * PAGE_SIZE) ltac:(unfold PAGE_SIZE; lia)) as Hle.
  pose proof PAGE_BYTES_eq as Hb. unfold PAGE_SIZE in *. lia.
Qed.

(** In a store that is in order (stream open and good, file of exactly
    [pageCount] pages, no request failing), for every page number [n] below
    the page count and every buffer [b] of 4096 bytes: [writePage n b],
    [close], [open] on the same path and [readPage n] all return [SUCCESS],
    and the buffer read is [b]. *)
Lemma write_close_open_read_roundtrip (e : endianness) (p : string) (s : State)
    (n : Z) (b : list byte) :
  store_ok s ->
  assoc (file (self s)) = Some p ->
  0 <= n < pageCount (self s) ->
  Z.of_nat (length b) = PAGE_SIZE ->
  exists s1 s2 s3,
    writePage n (Some b) s = (SUCCESS, s1) /\
    close s1 = (SUCCESS, s2) /\
    open e p s2 = (SUCCESS, s3) /\
    forall buf, Z.of_nat (length buf) = PAGE_SIZE ->
      exists s4, readPage n (Some buf) s3 = ((SUCCESS, Some b), s4).
Proof.
  intros Hok Hp Hn Hb.
  destruct (store_ok_explicit s p Hok Hp)
    as (pos & fn & pc & files & c & -> & Hc & Hlen & Hpc).
  simpl in Hn.
  assert (Hb' : length b = PAGE_BYTES) by (pose proof PAGE_BYTES_eq; lia).
  pose proof (page_offset_fits n pc c Hn Hlen) as Hfit.
  set (c1 := pwrite (Z.to_nat (page_offset n)) b c).
  assert (Hlen1 : length c1 = length c).
  { apply pwrite_inside_length. rewrite Hb'. exact Hfit. }
  assert (Hc1 : <[p := c1]> files !! p = Some c1) by apply lookup_insert_eq.
  assert (Hmod : Z.of_nat (length c1) mod PAGE_SIZE = 0).
  { rewrite Hlen1, Hlen, Z.mul_comm. apply Z.mod_mul. discriminate. }
  assert (Hcount : u32 (Z.of_nat (length c1) / PAGE_SIZE) = pc).
  { rewrite Hlen1, Hlen, Z.mul_comm, Z.div_mul by discriminate.
    apply u32_small. exact Hpc. }
  do 3 eexists. split; [|split; [|split]].
  - apply writePage_ok; [exact Hc | exact Hn | exact Hb' | split; reflexivity].
  - apply close_open_stream.
  - apply open_existing; [exact Hc1 | exact Hmod].
  - intros buf Hbuf. eexists. rewrite Hcount. simpl tl.
    rewrite (readPage_ok p p _ pc _ c1 n Hc1 Hn buf []) by (split; reflexivity).
    fold c1. unfold c1 at 1. rewrite <- Hb', pread_pwrite.
    rewrite memcpy_full by lia. reflexivity.
Qed.

Lemma scenario_store_ok : store_ok scenario_store.
Proof.
  exists "db.dat", (header_page LittleEndian ++ zeroPage).
  repeat split; vm_compute; reflexivity || discriminate.
Qed.

Lemma write_close_open_read_roundtrip_witness :
  (store_ok scenario_store /\
   assoc (file (self scenario_store)) = Some "db.dat" /\
   0 <= 1 < pageCount (self scenario_store) /\
   Z.of_nat (length pattern_AA) = PAGE_SIZE) /\
  exists s1 s2 s3,
    writePage 1 (Some pattern_AA) scenario_store = (SUCCESS, s1) /\
    close s1 = (SUCCESS, s2) /\
    open LittleEndian "db.dat" s2 = (SUCCESS, s3) /\
    forall buf, Z.of_nat (length buf) = PAGE_SIZE ->
      exists s4, readPage 1 (Some buf) s3 = ((SUCCESS, Some pattern_AA), s4).
Proof.
  assert (Hn : 0 <= 1 < pageCount (self scenario_store)).
  { vm_compute. split; [discriminate | reflexivity]. }
  split; [split; [exact scenario_store_ok | split; [reflexivity | split;
    [exact Hn | reflexivity]]]|].
  apply (write_close_open_read_roundtrip LittleEndian "db.dat" scenario_store
           1 pattern_AA scenario_store_ok);
    [reflexivity | exact Hn | reflexivity].
Defined.

(** The end-to-end scenario of the specification, run: a new [db.dat] has
    page count 1; the allocation returns page 1 and the page count is 2;
    after the pattern is written to page 1 and the file closed and reopened,
    page 1 reads back as 4096 bytes [0xAA]. *)
Example end_to_end_scenario :
  let '(rc1, s1) := open LittleEndian "db.dat" (fresh_manager ∅) in
  let '(rc2, page, s2) := allocatePage 0 s1 in
  let '(rc3, s3) := writePage page (Some pattern_AA) s2 in
  let '(rc4, s4) := close s3 in
  let '(rc5, s5) := open LittleEndian "db.dat" s4 in
  let '(rc6, buffer, s6) := readPage page (Some zeroPage) s5 in
  [rc1; rc2; rc3; rc4; rc5; rc6] = replicate 6 SUCCESS /\
  (pageCount (self s1), page, pageCount (self s2), pageCount (self s5)) = (1, 1, 2, 2) /\
  buffer = Some (replicate 4096 xaa).
Proof. vm_compute. repeat split. Qed.

(* ------------------------------------------------------------------------- *)
(** ** Page offsets *)
(* ------------------------------------------------------------------------- *)

Lemma page_offset_wraps_above n : 2 ^ 20 <= n -> page_offset n < n * 4096.
Proof.
  intros Hn. unfold page_offset.
  pose proof (u32_range (n * PAGE_SIZE)). unfold PAGE_SIZE in *. lia.
Qed.

Lemma page_offset_exact n : 0 <= n < 2 ^ 20 -> page_offset n = n * PAGE_SIZE.
Proof.
  intros Hn. unfold page_offset. apply u32_small. unfold PAGE_SIZE. lia.
Qed.

(** C10. With the stream open on a file of content [c] and good, a page
    number [n] below the page count and the next two requests not failing,
    [writePage n b] puts [b] in the file at byte offset [(n * 4096) mod 2^32]
    and [readPage n] delivers the bytes at that offset; for [n >= 2^20] this
    offset is smaller than [n * 4096]. *)
Theorem page_offset_is_32_bit (p : string) (s : State) (c b : list byte) (n : Z) :
  assoc (file (self s)) = Some p ->
  flags (file (self s)) = goodbit ->
  fs (world s) !! p = Some c ->
  two_requests_ok (faults (world s)) ->
  0 <= n < pageCount (self s) ->
  Z.of_nat (length b) = PAGE_SIZE ->
  let offset := (n * 4096) mod 2 ^ 32 in
  (exists s', writePage n (Some b) s = (SUCCESS, s') /\
              fs (world s') !! p = Some (pwrite (Z.to_nat offset) b c) /\
              fpos (file (self s')) = offset + 4096) /\
  (exists s', readPage n (Some b) s =
                ((SUCCESS, Some (memcpy b (pread (Z.to_nat offset) PAGE_BYTES c))), s') /\
              fs (world s') = fs (world s)) /\
  (2 ^ 20 <= n -> offset < n * 4096).
Proof.
  intros Ha Hst Hc Hfl Hn Hb offset.
  destruct s as [[[a pos st] fn pc] [files fl]]. simpl in Ha, Hst, Hc, Hfl, Hn.
  subst a st.
  assert (Hb' : length b = PAGE_BYTES) by (pose proof PAGE_BYTES_eq; lia).
  change offset with (page_offset n). clear offset.
  change (mk_State _ _) with (open_state p pos goodbit fn pc files fl).
  split; [|split].
  - eexists. split; [apply writePage_ok; eauto|].
    split; [apply lookup_insert_eq | reflexivity].
  - eexists. split; [apply (readPage_ok p fn pos pc files c n Hc Hn b fl Hfl)|].
    reflexivity.
  - apply page_offset_wraps_above.
Qed.

Lemma page_offset_is_32_bit_witness :
  (assoc (file (self scenario_store)) = Some "db.dat" /\
   flags (file (self scenario_store)) = goodbit /\
   two_requests_ok (faults (world scenario_store)) /\
   0 <= 1 < pageCount (self scenario_store) /\
   Z.of_nat (length pattern_AA) = PAGE_SIZE) /\
  (exists s', writePage 1 (Some pattern_AA) scenario_store = (SUCCESS, s') /\
              fs (world s') !! "db.dat" =
                Some (pwrite 4096 pattern_AA (header_page LittleEndian ++ zeroPage)) /\
              fpos (file (self s')) = 8192) /\
  (exists s', readPage 1 (Some pattern_AA) scenario_store =
                ((SUCCESS,
                  Some (memcpy pattern_AA
                          (pread 4096 PAGE_BYTES (header_page LittleEndian ++ zeroPage)))),
                 s') /\
              fs (world s') = fs (world scenario_store)) /\
  (2 ^ 20 <= 1 -> 4096 < 4096).
Proof.
  assert (Hn : 0 <= 1 < pageCount (self scenario_store)).
  { vm_compute. split; [discriminate | reflexivity]. }
  split; [split; [reflexivity | split; [reflexivity | split;
    [split; reflexivity | split; [exact Hn | reflexivity]]]]|].
  apply (page_offset_is_32_bit "db.dat" scenario_store
           (header_page LittleEndian ++ zeroPage) pattern_AA 1);
    [reflexivity | reflexivity | reflexivity | split; reflexivity
    | exact Hn | reflexivity].
Defined.

(* ------------------------------------------------------------------------- *)
(** ** A store opened on an empty file *)
(* ------------------------------------------------------------------------- *)

Lemma zeroPage_not_magic e : u32_of_bytes e zeroPage = Some 0.
Proof. destruct e; reflexivity. Qed.

(** C9. On a manager whose handle is closed, with no request failing, [open]
    on an existing file of size 0 returns [SUCCESS] with page count 0 and
    leaves the file system as it is; the next [allocatePage] returns page
    number 0, and the file is then one page of 4096 zero bytes, whose first
    four bytes read as 0 and not as [MAGIC_NUMBER]. *)
Theorem open_empty_file_has_no_header (e : endianness) (path : string) (s : State) :
  assoc (file (self s)) = None ->
  fs (world s) !! path = Some [] ->
  faults (world s) = [] ->
  exists s1 s2,
    open e path s = (SUCCESS, s1) /\
    getPageCount s1 = (0, s1) /\
    fs (world s1) = fs (world s) /\
    (forall x, allocatePage x s1 = ((SUCCESS, 0), s2)) /\
    getPageCount s2 = (1, s2) /\
    fs (world s2) !! path = Some (replicate 4096 x00) /\
    u32_of_bytes e (replicate 4096 x00) = Some 0 /\
    0 <> MAGIC_NUMBER.
Proof.
  destruct s as [[[a pos st] fn pc] [files fl]]. simpl.
  intros -> Hc ->.
  do 2 eexists. split.
  { apply (open_existing e path pos st fn pc files [] Hc). reflexivity. }
  split; [reflexivity|]. split; [reflexivity|]. split.
  { intros x. simpl length. change (u32 (Z.of_nat 0 / PAGE_SIZE)) with 0.
    apply (allocatePage_ok path 0 path 0 files [] [] x Hc); try lia.
    split; reflexivity. }
  split; [reflexivity|]. split.
  { simpl. rewrite lookup_insert_eq. reflexivity. }
  split; [apply zeroPage_not_magic | discriminate].
Qed.

Lemma open_empty_file_has_no_header_witness :
  (assoc (file (self (fresh_manager empty_file))) = None /\
   fs (world (fresh_manager empty_file)) !! "e.db" = Some [] /\
   faults (world (fresh_manager empty_file)) = []) /\
  exists s1 s2,
    open LittleEndian "e.db" (fresh_manager empty_file) = (SUCCESS, s1) /\
    getPageCount s1 = (0, s1) /\
    fs (world s1) = empty_file /\
    (forall x, allocatePage x s1 = ((SUCCESS, 0), s2)) /\
    getPageCount s2 = (1, s2) /\
    fs (world s2) !! "e.db" = Some (replicate 4096 x00) /\
    u32_of_bytes LittleEndian (replicate 4096 x00) = Some 0 /\
    0 <> MAGIC_NUMBER.
Proof.
  split; [repeat split|].
  apply (open_empty_file_has_no_header LittleEndian "e.db" (fresh_manager empty_file));
    reflexivity.
Defined.

(* ------------------------------------------------------------------------- *)
(** ** The layout of an interior node *)
(* ------------------------------------------------------------------------- *)

(** C8, as stated, fails: the [keys] array of [InteriorNode] has
    [MAX_COLUMNS] = 32 elements, fewer than [MAX_KEYS] = 510. *)
Lemma interior_node_lacks_MAX_KEYS_slots :
  ~ (exists k ch,
       Layout.slots Layout.InteriorNode "keys" = Some k /\
       Layout.slots Layout.InteriorNode "childPointers" = Some ch /\
       Layout.MAX_KEYS <= k /\ Layout.MAX_KEYS + 1 <= ch).
Proof.
  intros (k & ch & Hk & Hch & Hle & _).
  vm_compute in Hk. injection Hk as <-. vm_compute in Hle. apply Hle. reflexivity.
Qed.

(** C8, amended.  [MAX_KEYS] is [(PAGE_SIZE - sizeof(PageHeader) - 4) / 8],
    which is 510 with the 12-byte header, and [MIN_KEYS] is [MAX_KEYS / 2];
    the arrays of [InteriorNode] have [MAX_COLUMNS] = 32 key slots and
    [MAX_COLUMNS + 1] = 33 child slots, and the node takes 276 bytes.  A
    node with [MAX_KEYS] keys and [MAX_KEYS + 1] children would take 4100
    bytes, more than a page. *)
Theorem interior_node_layout :
  Layout.sizeof Layout.PageHeader = 12 /\
  Layout.MAX_KEYS = (PAGE_SIZE - Layout.sizeof Layout.PageHeader - 4) / 8 /\
  Layout.MAX_KEYS = 510 /\
  Layout.MIN_KEYS = Layout.MAX_KEYS / 2 /\
  Layout.slots Layout.InteriorNode "keys" = Some MAX_COLUMNS /\
  Layout.slots Layout.InteriorNode "childPointers" = Some (MAX_COLUMNS + 1) /\
  MAX_COLUMNS = 32 /\
  Layout.sizeof Layout.InteriorNode = 276 /\
  Layout.sizeof (Layout.interior_layout Layout.MAX_KEYS) = 4100 /\
  PAGE_SIZE < 4100.
Proof. repeat split. Qed.

(* ------------------------------------------------------------------------- *)
(** ** Error codes *)
(* ------------------------------------------------------------------------- *)

(** Case analysis on every run of a member function, without looking into
    the stream operations. *)
Ltac split_run :=
  repeat (match goal with
          | |- context [let (_, _) := ?x in _] => destruct x
          | |- context [if ?b then _ else _] => destruct b
          end; cbv beta iota).

Lemma writePage_codes n buffer s :
  fst (writePage n buffer s) = SUCCESS \/
  fst (writePage n buffer s) = FILE_IO_ERROR \/
  fst (writePage n buffer s) = INVALID_INPUT.
Proof.
  unfold writePage, bind, ret. split_run; simpl; auto.
Qed.

Lemma allocatePage_codes x s :
  fst (fst (allocatePage x s)) = SUCCESS \/
  fst (fst (allocatePage x s)) = FILE_IO_ERROR \/
  fst (fst (allocatePage x s)) = INVALID_INPUT.
Proof.
  unfold allocatePage, writeZeroPage, bind, ret.
  destruct (ios.is_open s) as [[] s1]; cbn [negb]; cbv beta iota.
  - destruct (get_pageCount s1) as [count s2].
    destruct (set_pageCount (u32 (count + 1)) s2) as [[] s3].
    pose proof (writePage_codes count (Some zeroPage) s3) as H.
    destruct (writePage count (Some zeroPage) s3) as [rc s4]. exact H.
  - simpl. auto.
Qed.

(** C7, as stated, fails.  On a store whose stream a refused second [open]
    left failed, and on a fresh store where the operating system fails the
    write of the new page before a byte is transferred, [allocatePage] does
    not extend the file and returns [FILE_IO_ERROR]. *)
Lemma allocatePage_write_failure_is_not_PAGE_ALLOCATION_FAILURE :
  (fs (world (snd (allocatePage 0 failed_stream_store))) =
     fs (world failed_stream_store) /\
   fst (fst (allocatePage 0 failed_stream_store)) = FILE_IO_ERROR) /\
  (fs (world disk_full_store) !! "db.dat" = Some (header_page LittleEndian) /\
   faults (world disk_full_store) = [granted; refused 0] /\
   fs (world (snd (allocatePage 0 disk_full_store))) = fs (world disk_full_store) /\
   fst (fst (allocatePage 0 disk_full_store)) = FILE_IO_ERROR) /\
  FILE_IO_ERROR <> PAGE_ALLOCATION_FAILURE.
Proof.
  repeat split; try (vm_compute; reflexivity).
  discriminate.
Qed.

Lemma allocatePage_failing_request p pos fn pc files fl x :
  0 <= pc -> pc + 1 < 2 ^ 32 ->
  (exists k fl', fl = refused k :: fl') \/
  (exists k fl', fl = granted :: refused k :: fl') ->
  let r := allocatePage x (open_state p pos goodbit fn pc files fl) in
  fst r = (FILE_IO_ERROR, pc) /\ pageCount (self (snd r)) = pc + 1.
Proof.
  intros Hpc Hmax Hfl r. subst r.
  unfold allocatePage, bind, writeZeroPage.
  change (ios.is_open (open_state p pos goodbit fn pc files fl))
    with (true, open_state p pos goodbit fn pc files fl).
  cbv beta iota.
  cbv beta iota delta [negb get_pageCount set_pageCount ret
                         open_state self world file filename pageCount].
  rewrite (u32_small (pc + 1)) by lia.
  destruct Hfl as [(k & fl' & ->) | (k & fl' & ->)].
  - fold (open_state p pos goodbit fn (pc + 1) files (refused k :: fl')).
    rewrite writePage_seek_fails by lia. repeat split.
  - fold (open_state p pos goodbit fn (pc + 1) files (granted :: refused k :: fl')).
    destruct (writePage_write_fails p fn pos (pc + 1) files pc ltac:(lia)
                zeroPage k fl') as (Hrc & Hcount & _).
    destruct (writePage pc (Some zeroPage) _) as [rc s'].
    cbn [fst snd] in *. subst rc. split; [reflexivity | exact Hcount].
Qed.

(** C7, amended.  [allocatePage] never returns [PAGE_ALLOCATION_FAILURE];
    when the stream is open and good and the seek or the write that extends
    the file fails, however many bytes of the page the write has
    transferred, the call returns [FILE_IO_ERROR]. *)
Theorem allocatePage_failure_is_FILE_IO_ERROR (x : Z) (s : State) :
  fst (fst (allocatePage x s)) <> PAGE_ALLOCATION_FAILURE /\
  (forall p k fl,
     assoc (file (self s)) = Some p ->
     flags (file (self s)) = goodbit ->
     0 <= pageCount (self s) < 2 ^ 32 - 1 ->
     faults (world s) = refused k :: fl \/
     faults (world s) = granted :: refused k :: fl ->
     fst (fst (allocatePage x s)) = FILE_IO_ERROR).
Proof.
  split.
  - destruct (allocatePage_codes x s) as [H | [H | H]]; rewrite H; discriminate.
  - destruct s as [[[a pos st] fn pc] [files fl0]]. simpl.
    intros p k fl -> -> Hpc Hfl.
    change (mk_State _ _) with (open_state p pos goodbit fn pc files fl0).
    destruct (allocatePage_failing_request p pos fn pc files fl0 x) as (H1 & _);
      [lia | lia | destruct Hfl; eauto |].
    rewrite H1. reflexivity.
Qed.

Lemma allocatePage_failure_is_FILE_IO_ERROR_witness :
  fst (fst (allocatePage 0 disk_full_store)) <> PAGE_ALLOCATION_FAILURE /\
  ((assoc (file (self disk_full_store)) = Some "db.dat" /\
    flags (file (self disk_full_store)) = goodbit /\
    0 <= pageCount (self disk_full_store) < 2 ^ 32 - 1 /\
    faults (world disk_full_store) = granted :: refused 0 :: []) /\
   fst (fst (allocatePage 0 disk_full_store)) = FILE_IO_ERROR).
Proof.
  assert (Hpc : 0 <= pageCount (self disk_full_store) < 2 ^ 32 - 1).
  { vm_compute. split; [discriminate | reflexivity]. }
  split; [apply (allocatePage_failure_is_FILE_IO_ERROR 0 disk_full_store)|].
  split; [split; [reflexivity | split; [reflexivity | split;
    [exact Hpc | reflexivity]]]|].
  apply (proj2 (allocatePage_failure_is_FILE_IO_ERROR 0 disk_full_store)
           "db.dat" 0%nat []);
    [reflexivity | reflexivity | exact Hpc | right; reflexivity].
Defined.

(** C4, as stated, fails.  In [stale_count_store] the stream is open, the
    buffer is not null and page 0 is below the page count, yet the file
    holds one byte: the read of [readPage 0] obtains one byte instead of
    4096 and fails (the stream is left with [failbit] and [eofbit]), and
    the call returns [SUCCESS]. *)
Lemma readPage_short_read_returns_SUCCESS :
  ~ guard_fails 0 (Some zeroPage) stale_count_store /\
  fst (fst (readPage 0 (Some zeroPage) stale_count_store)) = SUCCESS /\
  snd (fst (readPage 0 (Some zeroPage) stale_count_store)) =
    Some (x2a :: replicate 4095 x00) /\
  flags (file (self (snd (readPage 0 (Some zeroPage) stale_count_store)))) =
    ios.eofbit_failbit /\
  ios.failed ios.eofbit_failbit = true.
Proof.
  split.
  - intros [H | [H | H]].
    + vm_compute in H. discriminate.
    + discriminate.
    + vm_compute in H. apply H. reflexivity.
  - repeat split; vm_compute; reflexivity.
Qed.

(** C4, amended.  When the handle is closed, the buffer is null or the page
    number is not below the page count, [readPage] and [writePage] return
    [INVALID_INPUT] and leave the manager and the world as they are.
    Otherwise, with the stream open on a file:
    - if the stream is already in a failed state, both return
      [FILE_IO_ERROR];
    - if the stream is good and the seek fails, or the seek succeeds and the
      transfer is failed by the operating system (however many bytes of a
      page a failing write has transferred), both return [FILE_IO_ERROR];
    - if the stream is good and neither request fails, [writePage] returns
      [SUCCESS], and [readPage] returns [SUCCESS] with the bytes the file
      holds at the offset, also when the file ends before 4096 bytes were
      read (the stream is then left with [failbit] and [eofbit]). *)
Theorem readPage_writePage_error_codes (n : Z) (buffer : option (list byte))
    (s : State) :
  (guard_fails n buffer s ->
   readPage n buffer s = ((INVALID_INPUT, buffer), s) /\
   writePage n buffer s = (INVALID_INPUT, s)) /\
  (forall p b c,
     assoc (file (self s)) = Some p ->
     buffer = Some b ->
     0 <= n < pageCount (self s) ->
     fs (world s) !! p = Some c ->
     Z.of_nat (length b) = PAGE_SIZE ->
     (ios.failed (flags (file (self s))) = true ->
      fst (fst (readPage n buffer s)) = FILE_IO_ERROR /\
      fst (writePage n buffer s) = FILE_IO_ERROR) /\
     (flags (file (self s)) = goodbit ->
      (forall k fl,
         faults (world s) = refused k :: fl \/
         faults (world s) = granted :: refused k :: fl ->
         fst (fst (readPage n buffer s)) = FILE_IO_ERROR /\
         fst (writePage n buffer s) = FILE_IO_ERROR) /\
      (two_requests_ok (faults (world s)) ->
       let got := pread (Z.to_nat (page_offset n)) PAGE_BYTES c in
       fst (readPage n buffer s) = (SUCCESS, Some (memcpy b got)) /\
       flags (file (self (snd (readPage n buffer s)))) = after_read got /\
       fst (writePage n buffer s) = SUCCESS))).
Proof.
  split.
  - intros Hg. split; [apply readPage_guard | apply writePage_guard]; exact Hg.
  - intros p b c Ha -> Hn Hc Hb.
    destruct s as [[[a pos st] fn pc] [files fl0]]. simpl in Ha, Hn, Hc. subst a.
    assert (Hb' : length b = PAGE_BYTES) by (pose proof PAGE_BYTES_eq; lia).
    cbn [self world file fs faults assoc flags pageCount].
    change (mk_State _ _) with (open_state p pos st fn pc files fl0).
    split; [|intros ->; split].
    + intros Hst.
      rewrite readPage_stream_failed, writePage_stream_failed by assumption.
      split; reflexivity.
    + intros k fl [-> | ->].
      * rewrite readPage_seek_fails, writePage_seek_fails by assumption.
        split; reflexivity.
      * rewrite readPage_read_fails by assumption.
        split; [reflexivity|].
        apply (writePage_write_fails p fn pos pc files n Hn b k fl).
    + intros Hfl.
      rewrite (readPage_ok p fn pos pc files c n Hc Hn b fl0 Hfl).
      rewrite (writePage_ok p fn pos pc files c n Hc Hn b fl0 Hb' Hfl).
      repeat split.
Qed.

Lemma readPage_writePage_error_codes_witness :
  (guard_fails 7 (Some pattern_AA) scenario_store /\
   readPage 7 (Some pattern_AA) scenario_store =
     ((INVALID_INPUT, Some pattern_AA), scenario_store) /\
   writePage 7 (Some pattern_AA) scenario_store = (INVALID_INPUT, scenario_store)) /\
  ((assoc (file (self stale_count_store)) = Some "t.db" /\
    0 <= 0 < pageCount (self stale_count_store) /\
    fs (world stale_count_store) !! "t.db" = Some [x2a] /\
    Z.of_nat (length zeroPage) = PAGE_SIZE /\
    flags (file (self stale_count_store)) = goodbit /\
    two_requests_ok (faults (world stale_count_store))) /\
   fst (readPage 0 (Some zeroPage) stale_count_store) =
     (SUCCESS, Some (memcpy zeroPage [x2a])) /\
   flags (file (self (snd (readPage 0 (Some zeroPage) stale_count_store)))) =
     ios.eofbit_failbit /\
   fst (writePage 0 (Some zeroPage) stale_count_store) = SUCCESS).
Proof.
  assert (Hg : guard_fails 7 (Some pattern_AA) scenario_store).
  { right. right. vm_compute. discriminate. }
  assert (Hn : 0 <= 0 < pageCount (self stale_count_store)).
  { vm_compute. split; [discriminate | reflexivity]. }
  split.
  - split; [exact Hg|].
    apply (proj1 (readPage_writePage_error_codes 7 (Some pattern_AA) scenario_store)).
    exact Hg.
  - split; [split; [reflexivity | split; [exact Hn | split; [reflexivity | split;
      [reflexivity | split; [reflexivity | split; reflexivity]]]]]|].
    apply (proj2 (readPage_writePage_error_codes 0 (Some zeroPage) stale_count_store)
             "t.db" zeroPage [x2a]);
      [reflexivity | reflexivity | exact Hn | reflexivity | reflexivity
      | reflexivity | split; reflexivity].
Defined.

(* ------------------------------------------------------------------------- *)
(** ** The page count and the size of the file *)
(* ------------------------------------------------------------------------- *)

Lemma freePage_state n s : snd (freePage n s) = s.
Proof.
  destruct s as [[[a pos st] fn pc] [files fl]].
  destruct a; unfold_model; [destruct (pc <=? n)|]; reflexivity.
Qed.

Lemma in_order_elim k s :
  in_order k s ->
  exists p pos fn pc files c,
    s = open_state p pos goodbit fn pc files [] /\
    files !! p = Some c /\
    Z.of_nat (length c) = PAGE_SIZE * pc /\
    0 <= pc /\ pc + k <= 2 ^ 20.
Proof.
  destruct s as [[[a pos st] fn pc] [files fl]].
  intros [(p & c & Ha & Hst & Hc & Hlen & Hpc & Hfl) [Hk Hmax]]. simpl in *.
  subst. exists p, pos, fn, pc, files, c. repeat split; auto; lia.
Qed.

Lemma in_order_intro k p pos fn pc files c :
  0 <= k -> files !! p = Some c -> Z.of_nat (length c) = PAGE_SIZE * pc ->
  0 <= pc -> pc + k <= 2 ^ 20 ->
  in_order k (open_state p pos goodbit fn pc files []).
Proof.
  intros Hk Hc Hlen Hpc Hmax. split; [|simpl; lia].
  exists p, c. simpl. repeat split; auto; lia.
Qed.

Lemma in_order_weaken k k' s : 0 <= k' <= k -> in_order k s -> in_order k' s.
Proof.
  intros Hk [Hok [Hk0 Hmax]]. split; [exact Hok | lia].
Qed.

Lemma in_order_file_size k s :
  in_order k s -> getPageCount s = (file_size s / PAGE_SIZE, s).
Proof.
  intros Hs.
  destruct (in_order_elim k s Hs)
    as (p & pos & fn & pc & files & c & -> & Hc & Hlen & Hpc & Hmax).
  unfold getPageCount, get_pageCount, file_size, open_state. simpl.
  rewrite Hc. simpl. rewrite Hlen, Z.mul_comm, Z.div_mul by discriminate.
  reflexivity.
Qed.

Lemma in_order_allocatePage k s x :
  0 <= k -> in_order (k + 1) s ->
  exists pc, pageCount (self s) = pc /\
    fst (allocatePage x s) = (SUCCESS, pc) /\
    pageCount (self (snd (allocatePage x s))) = pc + 1 /\
    file_size (snd (allocatePage x s)) = file_size s + PAGE_SIZE /\
    in_order k (snd (allocatePage x s)).
Proof.
  intros Hk Hs.
  destruct (in_order_elim _ s Hs)
    as (p & pos & fn & pc & files & c & -> & Hc & Hlen & Hpc & Hmax).
  exists pc. split; [reflexivity|].
  rewrite (allocatePage_ok p pos fn pc files c [] x Hc Hpc)
    by first [lia | split; reflexivity].
  assert (Hoff : Z.to_nat (page_offset pc) = length c).
  { rewrite page_offset_exact by lia. lia. }
  rewrite Hoff, pwrite_at_end. simpl tl.
  split; [reflexivity|]. split; [reflexivity|]. split.
  - unfold file_size, open_state. simpl. rewrite lookup_insert_eq, Hc. simpl.
    rewrite length_app, length_zeroPage. pose proof PAGE_BYTES_eq. lia.
  - simpl. apply in_order_intro with (c := c ++ zeroPage);
      [lia | apply lookup_insert_eq | | lia | lia].
    rewrite length_app, length_zeroPage. pose proof PAGE_BYTES_eq. lia.
Qed.

Lemma allocations_nonneg calls : 0 <= allocations calls.
Proof.
  induction calls as [|c calls IH]; [reflexivity|]. destruct c; simpl; lia.
Qed.

Lemma allocations_cons c calls :
  allocations (c :: calls) = allocations [c] + allocations calls.
Proof. destruct c; simpl; lia. Qed.

Lemma in_order_step e k s c :
  0 <= k -> in_order (allocations [c] + k) s -> page_call c ->
  in_order k (snd (do_call e c s)).
Proof.
  intros Hk Hs Hcall.
  destruct c as [fname | n buffer | n buffer | | n];
    simpl in Hcall; cbn [allocations] in Hs; unfold do_call.
  - contradiction.
  - (* readPage *)
    rewrite Z.add_0_l in Hs. unfold bind, ret.
    destruct (in_order_elim _ s Hs)
      as (p & pos & fn & pc & files & c & -> & Hc & Hlen & Hpc & Hmax).
    destruct buffer as [b|].
    2:{ rewrite readPage_guard by (right; left; reflexivity). exact Hs. }
    destruct (Z.lt_ge_cases n pc) as [Hlt | Hge].
    2:{ rewrite readPage_guard by (right; right; exact Hge). exact Hs. }
    pose proof (page_offset_fits n pc c (conj Hcall Hlt) Hlen) as Hfit.
    rewrite (readPage_ok p fn pos pc files c n Hc (conj Hcall Hlt) b [])
      by (split; reflexivity).
    unfold after_read. rewrite (pread_full _ _ _ Hfit), Nat.ltb_irrefl. simpl.
    apply in_order_intro with (c := c); auto; lia.
  - (* writePage *)
    rewrite Z.add_0_l in Hs. destruct Hcall as [Hn Hbuf].
    destruct (in_order_elim _ s Hs)
      as (p & pos & fn & pc & files & c & -> & Hc & Hlen & Hpc & Hmax).
    destruct buffer as [b|].
    2:{ rewrite writePage_guard by (right; left; reflexivity). exact Hs. }
    destruct (Z.lt_ge_cases n pc) as [Hlt | Hge].
    2:{ rewrite writePage_guard by (right; right; exact Hge). exact Hs. }
    pose proof (page_offset_fits n pc c (conj Hn Hlt) Hlen) as Hfit.
    assert (Hb : length b = PAGE_BYTES).
    { pose proof (Hbuf b eq_refl). pose proof PAGE_BYTES_eq. lia. }
    rewrite (writePage_ok p fn pos pc files c n Hc (conj Hn Hlt) b [] Hb)
      by (split; reflexivity).
    simpl. eapply in_order_intro; [lia | apply lookup_insert_eq | | lia | lia].
    rewrite pwrite_inside_length by (rewrite Hb; exact Hfit). exact Hlen.
  - (* allocatePage *)
    unfold bind, ret.
    assert (Hs' : in_order (k + 1) s).
    { apply (in_order_weaken (1 + 0 + k)); [lia | exact Hs]. }
    destruct (in_order_allocatePage k s 0 Hk Hs') as (pc & _ & _ & _ & _ & H).
    destruct (allocatePage 0 s) as [r s']. exact H.
  - (* freePage *)
    rewrite Z.add_0_l in Hs. rewrite freePage_state. exact Hs.
Qed.

Lemma in_order_calls e calls : forall s,
  in_order (allocations calls) s -> Forall page_call calls ->
  in_order 0 (do_calls e calls s).
Proof.
  induction calls as [|c calls IH]; intros s Hs Hcalls.
  - exact Hs.
  - inversion Hcalls as [|? ? Hc Hrest]; subst.
    simpl do_calls. apply IH; [|exact Hrest].
    apply in_order_step; [apply allocations_nonneg | | exact Hc].
    rewrite <- allocations_cons. exact Hs.
Qed.

(** A successful [open] on a closed manager, with no request failing and a
    file below 4 GiB, leaves the store in order. *)
Lemma open_in_order e path s k :
  0 <= k ->
  assoc (file (self s)) = None ->
  faults (world s) = [] ->
  fst (open e path s) = SUCCESS ->
  file_size (snd (open e path s)) + PAGE_SIZE * k <= 2 ^ 32 ->
  in_order k (snd (open e path s)).
Proof.
  destruct s as [[[a pos st] fn pc] [files fl]]. simpl.
  intros Hk -> -> Hrc Hsize.
  destruct (files !! path) as [c|] eqn:Hc.
  - destruct (Z.eq_dec (Z.of_nat (length c) mod PAGE_SIZE) 0) as [Hmod | Hmod].
    + rewrite (open_existing e path pos st fn pc files c Hc Hmod) in *.
      unfold file_size, open_state in Hsize. simpl in Hsize. rewrite Hc in Hsize.
      simpl in Hsize. simpl snd.
      apply Z.mod_divide in Hmod; [|discriminate]. destruct Hmod as [q Hq].
      assert (Hdiv : Z.of_nat (length c) / PAGE_SIZE = q).
      { rewrite Hq. apply Z.div_mul. discriminate. }
      rewrite Hdiv. unfold PAGE_SIZE in *.
      rewrite u32_small by lia.
      apply in_order_intro with (c := c); auto; unfold PAGE_SIZE in *; lia.
    + rewrite (open_bad_size e path pos st fn pc files c Hc Hmod) in Hrc.
      discriminate.
  - rewrite (open_creates e path pos st fn pc files Hc) in *.
    unfold file_size, open_state in Hsize. simpl in Hsize.
    rewrite lookup_insert_eq in Hsize. simpl in Hsize.
    rewrite length_header_page in Hsize. pose proof PAGE_BYTES_eq as Hb.
    simpl snd. apply in_order_intro with (c := header_page e);
      [lia | apply lookup_insert_eq | | lia | unfold PAGE_SIZE in *; lia].
    rewrite length_header_page. unfold PAGE_SIZE in *. lia.
Qed.

(** C6, as stated, fails.  A refused [open] of a file of 4097 bytes leaves
    the page count at 0 while the size of the file divided by 4096 is 1.
    And after [open] created [db.dat], a second [open] (refused: the stream
    is already open, and is left failed) and an [allocatePage] (which
    returns [FILE_IO_ERROR] without touching the file), the page count is 2
    and the file holds 4096 bytes, one page. *)
Lemma pageCount_differs_after_failed_calls :
  (let s := do_calls LittleEndian [call_open "odd.db"] (fresh_manager odd_file) in
   fst (open LittleEndian "odd.db" (fresh_manager odd_file)) = FILE_IO_ERROR /\
   fst (getPageCount s) = 0 /\
   file_size s = 4097 /\
   fst (getPageCount s) <> file_size s / PAGE_SIZE) /\
  (let calls := [call_open "db.dat"; call_open "db.dat"; call_allocatePage] in
   let s := do_calls LittleEndian calls (fresh_manager ∅) in
   fst (do_call LittleEndian call_allocatePage failed_stream_store) = FILE_IO_ERROR /\
   fst (getPageCount s) = 2 /\
   file_size s = 4096 /\
   fst (getPageCount s) <> file_size s / PAGE_SIZE).
Proof.
  split; repeat split; try (vm_compute; reflexivity); vm_compute; discriminate.
Qed.

(** C6, amended.  After a successful [open] on a closed manager, any
    sequence of [readPage], [writePage], [allocatePage] and [freePage] calls
    (those refused with [INVALID_INPUT] included) leaves [pageCount()] equal
    to the size of the file divided by 4096, provided that no request to the
    operating system fails and that the file, with one page for every
    [allocatePage] call, stays within 4 GiB. *)
Theorem pageCount_matches_file_size (e : endianness) (path : string) (s : State)
    (calls : list call) :
  assoc (file (self s)) = None ->
  faults (world s) = [] ->
  fst (open e path s) = SUCCESS ->
  Forall page_call calls ->
  file_size (snd (open e path s)) + PAGE_SIZE * allocations calls <= 2 ^ 32 ->
  let s' := do_calls e calls (snd (open e path s)) in
  getPageCount s' = (file_size s' / PAGE_SIZE, s').
Proof.
  intros Ha Hfl Hrc Hcalls Hsize s'.
  apply (in_order_file_size 0). subst s'.
  apply in_order_calls; [|exact Hcalls].
  apply open_in_order; [apply allocations_nonneg | assumption..].
Qed.

Lemma sample_calls_are_page_calls : Forall page_call sample_calls.
Proof.
  unfold sample_calls. repeat constructor; try (simpl; lia);
    intros b Hb; injection Hb as <-; reflexivity.
Qed.

Lemma pageCount_matches_file_size_witness :
  (assoc (file (self (fresh_manager ∅))) = None /\
   faults (world (fresh_manager ∅)) = [] /\
   fst (open LittleEndian "db.dat" (fresh_manager ∅)) = SUCCESS /\
   Forall page_call sample_calls /\
   file_size (snd (open LittleEndian "db.dat" (fresh_manager ∅))) +
     PAGE_SIZE * allocations sample_calls <= 2 ^ 32) /\
  getPageCount
    (do_calls LittleEndian sample_calls
       (snd (open LittleEndian "db.dat" (fresh_manager ∅)))) =
  (file_size
     (do_calls LittleEndian sample_calls
        (snd (open LittleEndian "db.dat" (fresh_manager ∅)))) / PAGE_SIZE,
   do_calls LittleEndian sample_calls
     (snd (open LittleEndian "db.dat" (fresh_manager ∅)))).
Proof.
  assert (Hsize : file_size (snd (open LittleEndian "db.dat" (fresh_manager ∅))) +
                    PAGE_SIZE * allocations sample_calls <= 2 ^ 32).
  { vm_compute. discriminate. }
  split; [split; [reflexivity | split; [reflexivity | split; [reflexivity | split;
    [exact sample_calls_are_page_calls | exact Hsize]]]]|].
  apply (pageCount_matches_file_size LittleEndian "db.dat" (fresh_manager ∅)
           sample_calls);
    [reflexivity | reflexivity | reflexivity | exact sample_calls_are_page_calls
    | exact Hsize].
Defined.

(* ------------------------------------------------------------------------- *)
(** ** Allocating pages *)
(* ------------------------------------------------------------------------- *)

(** Below 2^20 pages, in a store that is in order, [allocatePage] returns
    the old page count, appends one page of zeros and adds one to the page
    count. *)
Lemma allocatePage_appends_zero_page k s x p c :
  0 <= k -> in_order (k + 1) s ->
  assoc (file (self s)) = Some p -> fs (world s) !! p = Some c ->
  exists s',
    allocatePage x s = ((SUCCESS, pageCount (self s)), s') /\
    fs (world s') = <[p := c ++ zeroPage]> (fs (world s)) /\
    pageCount (self s') = pageCount (self s) + 1 /\
    in_order k s'.
Proof.
  intros Hk Hs Ha Hc.
  destruct (in_order_allocatePage k s x Hk Hs) as (pc & Hpc & Hr & Hpc' & _ & Hok).
  destruct (in_order_elim _ s Hs)
    as (p' & pos & fn & pc' & files & c' & -> & Hc' & Hlen & Hpc0 & Hmax).
  simpl in Ha, Hc, Hpc. injection Ha as ->. subst pc'.
  rewrite Hc' in Hc. injection Hc as ->.
  rewrite (allocatePage_ok p pos fn pc files c [] x Hc' Hpc0)
    by first [lia | split; reflexivity].
  rewrite (allocatePage_ok p pos fn pc files c [] x Hc' Hpc0) in Hok
    by first [lia | split; reflexivity].
  assert (Hoff : Z.to_nat (page_offset pc) = length c).
  { rewrite page_offset_exact by lia. lia. }
  rewrite Hoff, pwrite_at_end in *.
  eexists. split; [reflexivity|]. split; [reflexivity|]. split; [reflexivity|].
  exact Hok.
Qed.

(** From a freshly created file, [n] allocations below 2^20 pages all
    succeed, return the page numbers 1, 2, ..., [n], and the page count
    after the [i]-th is [i + 1]. *)
Lemma allocate_n_in_order n : forall k s,
  in_order (k + Z.of_nat n) s -> 0 <= k ->
  fst (allocate_n n s) =
    map (fun i => (SUCCESS, pageCount (self s) + Z.of_nat i,
                   pageCount (self s) + Z.of_nat i + 1)) (seq 0 n) /\
  in_order k (snd (allocate_n n s)).
Proof.
  induction n as [|n IH]; intros k s Hs Hk.
  - simpl. split; [reflexivity|]. apply (in_order_weaken (k + Z.of_nat 0)); [lia | exact Hs].
  - assert (Hs' : in_order ((k + Z.of_nat n) + 1) s).
    { apply (in_order_weaken (k + Z.of_nat (S n))); [lia | exact Hs]. }
    destruct (in_order_allocatePage (k + Z.of_nat n) s 0 ltac:(lia) Hs')
      as (pc & Hpc & Hr & Hpc' & _ & Hok).
    cbn [allocate_n].
    destruct (allocatePage 0 s) as [[rc page] s1]. simpl in Hr, Hpc', Hok.
    injection Hr as -> ->.
    destruct (IH k s1 Hok Hk) as [Hrest Hfinal].
    destruct (allocate_n n s1) as [rest s2]. simpl in Hrest, Hfinal. simpl.
    split; [|exact Hfinal].
    rewrite Hrest, Hpc, Hpc', Z.add_0_r. f_equal.
    rewrite <- seq_shift, map_map. apply map_ext. intros i.
    rewrite Nat2Z.inj_succ.
    replace (pc + 1 + Z.of_nat i) with (pc + Z.succ (Z.of_nat i)) by lia.
    reflexivity.
Qed.

Lemma allocate_n_fresh e path s n :
  assoc (file (self s)) = None ->
  fs (world s) !! path = None ->
  faults (world s) = [] ->
  Z.of_nat n + 1 <= 2 ^ 20 ->
  fst (allocate_n n (snd (open e path s))) =
    map (fun i => (SUCCESS, Z.of_nat i + 1, Z.of_nat i + 2)) (seq 0 n).
Proof.
  destruct s as [[[a pos st] fn pc] [files fl]]. simpl.
  intros -> Hnone -> Hn.
  rewrite (open_creates e path pos st fn pc files Hnone). simpl snd.
  assert (Hs : in_order (0 + Z.of_nat n)
                 (open_state path PAGE_SIZE goodbit path 1
                    (<[path := header_page e]> files) [])).
  { apply in_order_intro with (c := header_page e);
      [lia | apply lookup_insert_eq | | lia | lia].
    rewrite length_header_page. pose proof PAGE_BYTES_eq.
    unfold PAGE_SIZE in *. lia. }
  destruct (allocate_n_in_order n 0 _ Hs ltac:(lia)) as [H _].
  rewrite H. apply map_ext. intros i. cbn [open_state self pageCount].
  replace (1 + Z.of_nat i) with (Z.of_nat i + 1) by lia.
  replace (Z.of_nat i + 1 + 1) with (Z.of_nat i + 2) by lia.
  reflexivity.
Qed.

Lemma GiB4_tail_eq : Z.of_nat GiB4_tail = 2 ^ 32 - 4096.
Proof. unfold GiB4_tail. apply Z2Nat.id. lia. Qed.

Lemma GiB4_file_length : Z.of_nat (length GiB4_file) = 2 ^ 32.
Proof.
  unfold GiB4_file.
  rewrite length_app, length_header_page, length_replicate, Nat2Z.inj_add.
  rewrite GiB4_tail_eq, PAGE_BYTES_eq. reflexivity.
Qed.

(** C2 at a store of 2^20 pages.  [open] on the 4 GiB file [big.db] returns
    [SUCCESS] with page count 2^20; [allocatePage] then returns [SUCCESS]
    and page number 2^20 and the page count becomes 2^20 + 1, but the page
    of zeros is written at offset 0: the header page is overwritten and the
    file still holds 2^32 bytes, 2^20 pages. *)
Theorem allocatePage_at_4GiB_overwrites_header :
  exists s1 s2,
    open LittleEndian "big.db" GiB4_store = (SUCCESS, s1) /\
    getPageCount s1 = (2 ^ 20, s1) /\
    file_size s1 = 2 ^ 32 /\
    fs (world s1) !! "big.db" = Some (header_page LittleEndian ++ replicate GiB4_tail x00) /\
    (forall x, allocatePage x s1 = ((SUCCESS, 2 ^ 20), s2)) /\
    getPageCount s2 = (2 ^ 20 + 1, s2) /\
    fs (world s2) !! "big.db" = Some (zeroPage ++ replicate GiB4_tail x00) /\
    file_size s2 = 2 ^ 32.
Proof.
  assert (Hlookup : ({["big.db" := GiB4_file]} : gmap string (list byte)) !! "big.db"
                    = Some GiB4_file) by apply lookup_singleton_eq.
  assert (Hmod : Z.of_nat (length GiB4_file) mod PAGE_SIZE = 0).
  { rewrite GiB4_file_length. reflexivity. }
  pose proof (open_existing LittleEndian "big.db" 0 goodbit "" 0 _ _ Hlookup Hmod)
    as Hopen.
  rewrite GiB4_file_length in Hopen.
  change (u32 (2 ^ 32 / PAGE_SIZE)) with (2 ^ 20) in Hopen.
  pose proof (fun x => allocatePage_ok "big.db" (2 ^ 32) "big.db" (2 ^ 20) _ _ [] x
                         Hlookup ltac:(lia) ltac:(lia) (conj eq_refl eq_refl))
    as Halloc.
  change (page_offset (2 ^ 20)) with 0 in Halloc.
  change (Z.to_nat 0) with 0%nat in Halloc.
  unfold GiB4_file in Halloc at 2.
  rewrite pwrite_front in Halloc by (rewrite length_zeroPage, length_header_page; reflexivity).
  do 2 eexists.
  split; [exact Hopen|]. split; [reflexivity|]. split.
  { unfold file_size, open_state. cbn [self world file assoc fs].
    rewrite Hlookup. cbn [default from_option id]. apply GiB4_file_length. }
  split; [exact Hlookup|]. split; [exact Halloc|]. split; [reflexivity|]. split.
  { unfold open_state. cbn [self world file assoc fs]. apply lookup_insert_eq. }
  unfold file_size, open_state. cbn [self world file assoc fs tl].
  rewrite lookup_insert_eq. cbn [default from_option id].
  rewrite length_app, length_zeroPage, length_replicate, Nat2Z.inj_add.
  rewrite GiB4_tail_eq, PAGE_BYTES_eq. reflexivity.
Qed.

(** C3 at a store of 2^20 pages.  On the 4 GiB file [big.db], [open] and
    [allocatePage] return [SUCCESS] and the page number allocated is 2^20.
    For every buffer [b] of 4096 bytes, [writePage 2^20 b] returns
    [SUCCESS] but puts [b] at offset 0, over the first page of the file;
    [close] and [open] return [SUCCESS], the page count taken from the size
    of the file is 2^20 again, and [readPage 2^20] returns [INVALID_INPUT]
    and leaves the caller's buffer as it was: the page written is not read
    back. *)
Theorem page_allocated_at_4GiB_is_not_read_back (b : list byte) :
  Z.of_nat (length b) = PAGE_SIZE ->
  exists s1 s2 s3 s4 s5,
    open LittleEndian "big.db" GiB4_store = (SUCCESS, s1) /\
    allocatePage 0 s1 = ((SUCCESS, 2 ^ 20), s2) /\
    writePage (2 ^ 20) (Some b) s2 = (SUCCESS, s3) /\
    fs (world s3) !! "big.db" = Some (b ++ replicate GiB4_tail x00) /\
    close s3 = (SUCCESS, s4) /\
    open LittleEndian "big.db" s4 = (SUCCESS, s5) /\
    getPageCount s5 = (2 ^ 20, s5) /\
    forall buf, readPage (2 ^ 20) (Some buf) s5 = ((INVALID_INPUT, Some buf), s5).
Proof.
  intros Hb.
  assert (Hb' : length b = PAGE_BYTES) by (pose proof PAGE_BYTES_eq; lia).
  set (tail := replicate GiB4_tail x00).
  set (files1 := ({["big.db" := GiB4_file]} : gmap string (list byte))).
  set (files2 := <["big.db" := zeroPage ++ tail]> files1).
  set (files3 := <["big.db" := b ++ tail]> files2).
  assert (Hlookup : files1 !! "big.db" = Some GiB4_file) by apply lookup_singleton_eq.
  assert (Hmod : Z.of_nat (length GiB4_file) mod PAGE_SIZE = 0).
  { rewrite GiB4_file_length. reflexivity. }
  (* open *)
  pose proof (open_existing LittleEndian "big.db" 0 goodbit "" 0 _ _ Hlookup Hmod)
    as Hopen.
  rewrite GiB4_file_length in Hopen.
  change (u32 (2 ^ 32 / PAGE_SIZE)) with (2 ^ 20) in Hopen.
  (* allocatePage *)
  pose proof (allocatePage_ok "big.db" (2 ^ 32) "big.db" (2 ^ 20) _ _ [] 0
                Hlookup ltac:(lia) ltac:(lia) (conj eq_refl eq_refl))
    as Halloc.
  change (page_offset (2 ^ 20)) with 0 in Halloc.
  change (Z.to_nat 0) with 0%nat in Halloc.
  unfold GiB4_file in Halloc.
  rewrite pwrite_front in Halloc
    by (rewrite length_zeroPage, length_header_page; reflexivity).
  cbn [tl] in Halloc. fold tail files2 in Halloc.
  (* writePage *)
  assert (Hlookup2 : files2 !! "big.db" = Some (zeroPage ++ tail))
    by apply lookup_insert_eq.
  pose proof (writePage_ok "big.db" "big.db" (0 + PAGE_SIZE) (2 ^ 20 + 1) files2
                (zeroPage ++ tail) (2 ^ 20) Hlookup2 ltac:(lia) b []
                Hb' (conj eq_refl eq_refl)) as Hwrite.
  change (page_offset (2 ^ 20)) with 0 in Hwrite.
  change (Z.to_nat 0) with 0%nat in Hwrite.
  rewrite pwrite_front in Hwrite by (rewrite length_zeroPage; exact Hb').
  cbn [tl] in Hwrite. fold files3 in Hwrite.
  (* close, open *)
  assert (Hlookup3 : files3 !! "big.db" = Some (b ++ tail)) by apply lookup_insert_eq.
  assert (Hlen3 : Z.of_nat (length (b ++ tail)) = 2 ^ 32).
  { unfold tail. rewrite length_app, length_replicate, Nat2Z.inj_add.
    rewrite GiB4_tail_eq, Hb. reflexivity. }
  assert (Hmod3 : Z.of_nat (length (b ++ tail)) mod PAGE_SIZE = 0).
  { rewrite Hlen3. reflexivity. }
  pose proof (open_existing LittleEndian "big.db" 0 goodbit "big.db" (2 ^ 20 + 1)
                files3 (b ++ tail) Hlookup3 Hmod3) as Hreopen.
  rewrite Hlen3 in Hreopen.
  change (u32 (2 ^ 32 / PAGE_SIZE)) with (2 ^ 20) in Hreopen.
  do 5 eexists.
  split; [exact Hopen|]. split; [exact Halloc|]. split; [exact Hwrite|].
  split; [exact Hlookup3|]. split; [apply close_open_stream|].
  split; [exact Hreopen|]. split; [reflexivity|].
  intros buf. apply readPage_guard. right. right. simpl. lia.
Qed.

Lemma page_allocated_at_4GiB_is_not_read_back_witness :
  Z.of_nat (length pattern_AA) = PAGE_SIZE /\
  exists s1 s2 s3 s4 s5,
    open LittleEndian "big.db" GiB4_store = (SUCCESS, s1) /\
    allocatePage 0 s1 = ((SUCCESS, 2 ^ 20), s2) /\
    writePage (2 ^ 20) (Some pattern_AA) s2 = (SUCCESS, s3) /\
    fs (world s3) !! "big.db" = Some (pattern_AA ++ replicate GiB4_tail x00) /\
    close s3 = (SUCCESS, s4) /\
    open LittleEndian "big.db" s4 = (SUCCESS, s5) /\
    getPageCount s5 = (2 ^ 20, s5) /\
    forall buf, readPage (2 ^ 20) (Some buf) s5 = ((INVALID_INPUT, Some buf), s5).
Proof.
  split; [reflexivity|].
  apply (page_allocated_at_4GiB_is_not_read_back pattern_AA). reflexivity.
Defined.

(* ------------------------------------------------------------------------- *)
(** ** The helper utilities *)
(* ------------------------------------------------------------------------- *)

(** X1. [errorMessage] tells the five error codes apart, never answers
    ["Unknown error"] for one of them, and answers it for every other
    value. *)
Theorem errorMessage_distinguishes_codes :
  (forall e1 e2 : ErrorCode,
     errorMessage (ErrorCode_value e1) = errorMessage (ErrorCode_value e2) -> e1 = e2) /\
  (forall e : ErrorCode, errorMessage (ErrorCode_value e) <> "Unknown error") /\
  (forall v : Z, (forall e : ErrorCode, v <> ErrorCode_value e) ->
     errorMessage v = "Unknown error").
Proof.
  split; [|split].
  - intros [] []; simpl; intros H; try reflexivity; discriminate.
  - intros []; simpl; discriminate.
  - intros v Hv.
    pose proof (Hv SUCCESS). pose proof (Hv FILE_IO_ERROR).
    pose proof (Hv PAGE_ALLOCATION_FAILURE). pose proof (Hv INVALID_INPUT).
    pose proof (Hv OUT_OF_MEMORY). simpl in *.
    destruct v as [|q|q]; try reflexivity; try congruence.
    destruct q as [[q|q|]|[q|[q|q|]|]|]; try reflexivity; congruence.
Qed.

Lemma errorMessage_distinguishes_codes_witness :
  errorMessage (ErrorCode_value INVALID_INPUT) <> "Unknown error" /\
  errorMessage 5 = "Unknown error".
Proof.
  split.
  - apply (proj1 (proj2 errorMessage_distinguishes_codes) INVALID_INPUT).
  - apply (proj2 (proj2 errorMessage_distinguishes_codes) 5).
    intros []; discriminate.
Defined.

(** *** Characters *)

Lemma toupper_not_lower c : cctype.islower (cctype.toupper c) = false.
Proof. destruct c as [[] [] [] [] [] [] [] []]; reflexivity. Qed.

Lemma toupper_fixes_other c : cctype.islower c = false -> cctype.toupper c = c.
Proof. unfold cctype.toupper. intros ->. reflexivity. Qed.

Lemma isspace_toupper c : cctype.isspace (cctype.toupper c) = cctype.isspace c.
Proof. destruct c as [[] [] [] [] [] [] [] []]; reflexivity. Qed.

(** *** Strings and their characters *)

Lemma chars_of_chars l :
  String.list_ascii_of_string (String.string_of_list_ascii l) = l.
Proof. apply String.list_ascii_of_string_of_list_ascii. Qed.

Lemma string_of_string str :
  String.string_of_list_ascii (String.list_ascii_of_string str) = str.
Proof. apply String.string_of_list_ascii_of_string. Qed.

Lemma string_of_chars_app l k :
  String.string_of_list_ascii (l ++ k) =
  String.string_of_list_ascii l +:+ String.string_of_list_ascii k.
Proof. induction l as [|c l IH]; simpl; [reflexivity | now rewrite IH]. Qed.

Lemma string_length_chars str :
  String.length str = length (String.list_ascii_of_string str).
Proof. induction str as [|c str IH]; simpl; [reflexivity | now rewrite IH]. Qed.

(** *** [toUpper] *)

(** X2. [toUpper] keeps the length, leaves no lower-case letter, changes
    nothing in a string without lower-case letters, and is idempotent. *)
Theorem toUpper_properties (str : string) :
  String.length (toUpper str) = String.length str /\
  has_lower (toUpper str) = false /\
  (has_lower str = false -> toUpper str = str) /\
  toUpper (toUpper str) = toUpper str.
Proof.
  assert (Hfix : forall s, has_lower s = false -> toUpper s = s).
  { intros s. unfold has_lower, toUpper. intros H.
    rewrite <- (string_of_string s) at 2. f_equal.
    induction (String.list_ascii_of_string s) as [|c l IH]; [reflexivity|].
    simpl in *. apply orb_false_iff in H as [Hc Hl].
    rewrite toupper_fixes_other by exact Hc. f_equal. apply IH. exact Hl. }
  assert (Hlow : has_lower (toUpper str) = false).
  { unfold has_lower, toUpper. rewrite chars_of_chars.
    induction (String.list_ascii_of_string str) as [|c l IH]; [reflexivity|].
    simpl. rewrite toupper_not_lower. exact IH. }
  split; [|split; [exact Hlow | split; [apply Hfix | apply Hfix; exact Hlow]]].
  unfold toUpper. rewrite !string_length_chars, chars_of_chars. apply length_map.
Qed.

Lemma toUpper_properties_witness :
  (has_lower "SELECT * FROM T1" = false) /\
  toUpper "SELECT * FROM T1" = "SELECT * FROM T1".
Proof.
  split; [reflexivity|].
  apply (proj1 (proj2 (proj2 (toUpper_properties "SELECT * FROM T1")))).
  reflexivity.
Defined.

(** *** [trim] *)

Section trim_loops.

Variable chars : list ascii.

Abbreviation space c := (cctype.isspace c = true).

Lemma char_at_drop i : (i < length chars)%nat ->
  drop i chars = char_at chars i :: drop (S i) chars.
Proof.
  intros Hi. unfold char_at.
  destruct (lookup_lt_is_Some_2 chars i Hi) as [c Hc].
  rewrite (nth_lookup_Some _ _ _ _ Hc). apply drop_S. exact Hc.
Qed.

(** The first loop stops within the string, on a character that is not
    white space or at the end, and has only passed white space. *)
Lemma trim_start_spec fuel : forall start,
  (start <= length chars)%nat -> (length chars - start <= fuel)%nat ->
  let r := trim_start chars fuel start in
  (start <= r <= length chars)%nat /\
  Forall (fun c => space c) (take (r - start) (drop start chars)) /\
  ((r < length chars)%nat -> cctype.isspace (char_at chars r) = false).
Proof.
  induction fuel as [|fuel IH]; intros start Hle Hfuel; cbn [trim_start].
  - assert (start = length chars) as -> by lia.
    rewrite Nat.sub_diag. repeat split; auto; lia.
  - destruct (start <? length chars)%nat eqn:Hlt; cbn [andb].
    + apply Nat.ltb_lt in Hlt.
      destruct (cctype.isspace (char_at chars start)) eqn:Hsp.
      * destruct (IH (start + 1)%nat ltac:(lia) ltac:(lia)) as (Hr & Hall & Hstop).
        split; [lia|]. split; [|exact Hstop].
        rewrite (char_at_drop start Hlt).
        replace (trim_start chars fuel (start + 1) - start)%nat
          with (S (trim_start chars fuel (start + 1) - (start + 1)))%nat by lia.
        cbn [take]. constructor; [exact Hsp|].
        replace (S start) with (start + 1)%nat by lia. exact Hall.
      * rewrite Nat.sub_diag. repeat split; auto; lia.
    + apply Nat.ltb_ge in Hlt. rewrite Nat.sub_diag. repeat split; auto; lia.
Qed.

(** The second loop stops at or after [start], just after a character that
    is not white space or at [start], and has only passed white space. *)
Lemma trim_end_spec start fuel : forall end_,
  (start <= end_ <= length chars)%nat -> (end_ - start <= fuel)%nat ->
  let r := trim_end chars fuel start end_ in
  (start <= r <= end_)%nat /\
  Forall (fun c => space c) (take (end_ - r) (drop r chars)) /\
  ((start < r)%nat -> cctype.isspace (char_at chars (r - 1)) = false).
Proof.
  induction fuel as [|fuel IH]; intros end_ Hle Hfuel; cbn [trim_end].
  - assert (end_ = start) as -> by lia.
    rewrite Nat.sub_diag. repeat split; auto; lia.
  - destruct (start <? end_)%nat eqn:Hlt; cbn [andb].
    + apply Nat.ltb_lt in Hlt.
      destruct (cctype.isspace (char_at chars (end_ - 1))) eqn:Hsp.
      * destruct (IH (end_ - 1)%nat ltac:(lia) ltac:(lia)) as (Hr & Hall & Hstop).
        set (r := trim_end chars fuel start (end_ - 1)) in *.
        split; [lia|]. split; [|exact Hstop].
        replace (end_ - r)%nat with ((end_ - 1 - r) + 1)%nat by lia.
        rewrite <- take_take_drop.
        apply Forall_app. split; [exact Hall|].
        rewrite drop_drop. replace (r + (end_ - 1 - r))%nat with (end_ - 1)%nat by lia.
        rewrite (char_at_drop (end_ - 1)) by lia. cbn [take].
        constructor; [exact Hsp | constructor].
      * rewrite Nat.sub_diag. repeat split; auto; lia.
    + apply Nat.ltb_ge in Hlt. rewrite Nat.sub_diag. repeat split; auto; lia.
Qed.

End trim_loops.

(** The characters [trim] keeps, between the two indices its loops find. *)
Lemma trim_chars str :
  let chars := String.list_ascii_of_string str in
  let start := trim_start chars (length chars) 0 in
  let end_ := trim_end chars (length chars) start (length chars) in
  String.list_ascii_of_string (trim str) = take (end_ - start) (drop start chars) /\
  (start <= end_ <= length chars)%nat /\
  Forall (fun c => cctype.isspace c = true) (take start chars) /\
  Forall (fun c => cctype.isspace c = true) (drop end_ chars) /\
  ((start < length chars)%nat -> cctype.isspace (char_at chars start) = false) /\
  ((start < end_)%nat -> cctype.isspace (char_at chars (end_ - 1)) = false).
Proof.
  intros chars start end_.
  destruct (trim_start_spec chars (length chars) 0 ltac:(lia) ltac:(lia))
    as (Hs & Hpre & Hstop).
  fold start in Hs, Hpre, Hstop.
  destruct (trim_end_spec chars start (length chars) (length chars) ltac:(lia) ltac:(lia))
    as (He & Hpost & Hlast).
  fold end_ in He, Hpost, Hlast.
  rewrite Nat.sub_0_r, drop_0 in Hpre.
  rewrite take_ge in Hpost by (rewrite length_drop; lia).
  split; [apply chars_of_chars|]. repeat split; auto; lia.
Qed.

Lemma head_of_slice (chars : list ascii) start end_ :
  (start < end_ <= length chars)%nat ->
  exists rest, take (end_ - start) (drop start chars) = char_at chars start :: rest.
Proof.
  intros H. rewrite (char_at_drop chars start) by lia.
  replace (end_ - start)%nat with (S (end_ - start - 1)) by lia.
  cbn [take]. eauto.
Qed.

Lemma last_of_slice (chars : list ascii) start end_ :
  (start < end_ <= length chars)%nat ->
  last (take (end_ - start) (drop start chars)) = Some (char_at chars (end_ - 1)).
Proof.
  intros H.
  replace (end_ - start)%nat with ((end_ - 1 - start) + 1)%nat by lia.
  rewrite <- take_take_drop, drop_drop.
  replace (start + (end_ - 1 - start))%nat with (end_ - 1)%nat by lia.
  rewrite (char_at_drop chars (end_ - 1)) by lia. cbn [take].
  apply last_snoc.
Qed.

Lemma trim_result_trimmed str :
  starts_with_space (trim str) = false /\ ends_with_space (trim str) = false.
Proof.
  destruct (trim_chars str) as (Hchars & Hle & Hpre & Hpost & Hfirst & Hlast).
  set (chars := String.list_ascii_of_string str) in *.
  set (start := trim_start chars (length chars) 0) in *.
  set (end_ := trim_end chars (length chars) start (length chars)) in *.
  split.
  - unfold starts_with_space. rewrite Hchars.
    destruct (Nat.lt_ge_cases start end_) as [Hlt | Hge].
    + destruct (head_of_slice chars start end_ ltac:(lia)) as [rest ->].
      apply Hfirst. lia.
    + replace (end_ - start)%nat with 0%nat by lia. reflexivity.
  - unfold ends_with_space. rewrite Hchars.
    destruct (Nat.lt_ge_cases start end_) as [Hlt | Hge].
    + rewrite (last_of_slice chars start end_) by lia. apply Hlast. exact Hlt.
    + replace (end_ - start)%nat with 0%nat by lia. reflexivity.
Qed.

(** X3. [trim] removes a prefix and a suffix of white space, and what it
    returns neither starts nor ends with white space. *)
Theorem trim_removes_surrounding_space (str : string) :
  exists pre post,
    str = pre +:+ trim str +:+ post /\
    whitespace pre /\ whitespace post /\
    starts_with_space (trim str) = false /\
    ends_with_space (trim str) = false.
Proof.
  destruct (trim_chars str) as (Hchars & Hle & Hpre & Hpost & Hfirst & Hlast).
  set (chars := String.list_ascii_of_string str) in *.
  set (start := trim_start chars (length chars) 0) in *.
  set (end_ := trim_end chars (length chars) start (length chars)) in *.
  exists (String.string_of_list_ascii (take start chars)),
         (String.string_of_list_ascii (drop end_ chars)).
  split; [|split; [|split; [|split]]].
  - rewrite <- (string_of_string (trim str)), Hchars, <- !string_of_chars_app.
    rewrite <- (string_of_string str) at 1. fold chars. f_equal.
    rewrite <- (take_drop start chars) at 1. f_equal.
    rewrite <- (take_drop (end_ - start) (drop start chars)) at 1. f_equal.
    rewrite drop_drop. f_equal. lia.
  - unfold whitespace. rewrite chars_of_chars. exact Hpre.
  - unfold whitespace. rewrite chars_of_chars. exact Hpost.
  - apply trim_result_trimmed.
  - apply trim_result_trimmed.
Qed.

(** A string that neither starts nor ends with white space is left as it
    is. *)
Lemma trim_fixes_trimmed str :
  starts_with_space str = false -> ends_with_space str = false -> trim str = str.
Proof.
  unfold starts_with_space, ends_with_space, trim.
  set (chars := String.list_ascii_of_string str). intros Hfirst Hlast.
  assert (Hstart : trim_start chars (length chars) 0 = 0%nat).
  { destruct chars as [|c l]; [reflexivity|].
    cbn [length trim_start]. unfold char_at. cbn [nth].
    rewrite Hfirst. rewrite andb_false_r. reflexivity. }
  assert (Hend : trim_end chars (length chars) 0 (length chars) = length chars).
  { destruct (last chars) as [c|] eqn:Hl.
    - assert (Hlen : (0 < length chars)%nat).
      { destruct chars; [discriminate | simpl; lia]. }
      destruct (length chars) as [|k] eqn:Hk; [lia|].
      cbn [trim_end]. rewrite <- Hk.
      rewrite last_lookup in Hl.
      replace (pred (length chars)) with (length chars - 1)%nat in Hl by lia.
      unfold char_at. rewrite (nth_lookup_Some _ _ _ _ Hl), Hlast.
      rewrite andb_false_r. reflexivity.
    - apply last_None in Hl. rewrite Hl. reflexivity. }
  rewrite Hstart, Hend, Nat.sub_0_r, drop_0, take_ge by lia.
  apply string_of_string.
Qed.

(** X4. [trim] is idempotent. *)
Theorem trim_idempotent (str : string) : trim (trim str) = trim str.
Proof.
  destruct (trim_result_trimmed str) as [H1 H2].
  apply trim_fixes_trimmed; assumption.
Qed.

(** X5. [trim] returns the empty string exactly for the strings made of white
    space only, the empty string among them. *)
Theorem trim_empty_iff_whitespace (str : string) :
  trim str = "" <-> whitespace str.
Proof.
  destruct (trim_chars str) as (Hchars & Hle & Hpre & Hpost & Hfirst & Hlast).
  unfold whitespace.
  set (chars := String.list_ascii_of_string str) in *.
  set (start := trim_start chars (length chars) 0) in *.
  set (end_ := trim_end chars (length chars) start (length chars)) in *.
  split.
  - intros Hempty. rewrite Hempty in Hchars. simpl in Hchars.
    rewrite <- (take_drop start chars).
    rewrite <- (take_drop (end_ - start) (drop start chars)), <- Hchars.
    rewrite drop_drop. replace (start + (end_ - start))%nat with end_ by lia.
    apply Forall_app. split; [exact Hpre | exact Hpost].
  - intros Hall.
    assert (Hstart : start = length chars).
    { destruct (Nat.lt_ge_cases start (length chars)) as [Hlt | Hge]; [|lia].
      specialize (Hfirst Hlt).
      destruct (lookup_lt_is_Some_2 chars start Hlt) as [c Hc].
      unfold char_at in Hfirst. rewrite (nth_lookup_Some _ _ _ _ Hc) in Hfirst.
      rewrite Forall_lookup in Hall. rewrite (Hall _ _ Hc) in Hfirst. discriminate. }
    rewrite <- (string_of_string (trim str)), Hchars.
    replace (end_ - start)%nat with 0%nat by lia. reflexivity.
Qed.

Lemma trim_start_map (f : ascii -> ascii) chars fuel :
  (forall c, cctype.isspace (f c) = cctype.isspace c) -> f zero = zero ->
  forall start, trim_start (map f chars) fuel start = trim_start chars fuel start.
Proof.
  intros Hf Hz. induction fuel as [|fuel IH]; intros start; [reflexivity|].
  cbn [trim_start]. rewrite length_map. unfold char_at.
  rewrite <- Hz at 1. rewrite map_nth, Hf, IH. reflexivity.
Qed.

Lemma trim_end_map (f : ascii -> ascii) chars fuel start :
  (forall c, cctype.isspace (f c) = cctype.isspace c) -> f zero = zero ->
  forall end_, trim_end (map f chars) fuel start end_ = trim_end chars fuel start end_.
Proof.
  intros Hf Hz. induction fuel as [|fuel IH]; intros end_; [reflexivity|].
  cbn [trim_end]. unfold char_at.
  rewrite <- Hz at 1. rewrite map_nth, Hf, IH. reflexivity.
Qed.

(** X6. [toUpper] and [trim] commute. *)
Theorem toUpper_trim_commute (str : string) :
  toUpper (trim str) = trim (toUpper str).
Proof.
  unfold toUpper, trim. rewrite !chars_of_chars, length_map.
  rewrite trim_start_map, trim_end_map by (apply isspace_toupper || reflexivity).
  rewrite skipn_map, firstn_map. reflexivity.
Qed.

(* ------------------------------------------------------------------------- *)
(** ** What the member functions leave alone *)
(* ------------------------------------------------------------------------- *)

(** Case analysis on whatever test or script entry the run is stuck on. *)
Ltac explore := repeat (unfold_model; try case_match; simplify_eq/=).

Ltac explore_from s :=
  let a := fresh "a" in let st := fresh "st" in
  destruct s as [[[a ? st] ? ?] [? ?]]; destruct st as [[] [] []];
  explore.

Lemma preserves_ret {A} (R : State -> State -> Prop) (a : A) :
  (forall s, R s s) -> preserves R (ret a).
Proof. intros Hrefl s. apply Hrefl. Qed.

Lemma preserves_bind {A B} (R : State -> State -> Prop) (m : M A) (k : A -> M B) :
  (forall s1 s2 s3, R s1 s2 -> R s2 s3 -> R s1 s3) ->
  preserves R m -> (forall a, preserves R (k a)) -> preserves R (bind m k).
Proof.
  intros Htrans Hm Hk s. unfold bind.
  specialize (Hm s). destruct (m s) as [a s1]. simpl in Hm.
  apply (Htrans s s1); [exact Hm | apply Hk].
Qed.

Lemma preserves_weaken {A} (R R' : State -> State -> Prop) (m : M A) :
  (forall s s', R s s' -> R' s s') -> preserves R m -> preserves R' m.
Proof. intros Hsub Hm s. apply Hsub, Hm. Qed.

Lemma keeps_ret {A} (I : State -> Prop) (a : A) : keeps I (ret a).
Proof. intros s Hs. exact Hs. Qed.

Lemma keeps_bind {A B} (I : State -> Prop) (m : M A) (k : A -> M B) :
  keeps I m -> (forall a, keeps I (k a)) -> keeps I (bind m k).
Proof.
  intros Hm Hk s Hs. unfold bind.
  specialize (Hm s Hs). destruct (m s) as [a s1]. simpl in Hm.
  apply Hk. exact Hm.
Qed.

Lemma keeps_of_preserves {A} (R : State -> State -> Prop) (I : State -> Prop)
    (m : M A) :
  (forall s s', R s s' -> I s -> I s') -> preserves R m -> keeps I m.
Proof. intros Hstable Hm s Hs. apply (Hstable s); [apply Hm | exact Hs]. Qed.

(** *** The relations *)

Lemma quiet_refl s : quiet s s.
Proof. repeat split. Qed.

Lemma quiet_trans s1 s2 s3 : quiet s1 s2 -> quiet s2 s3 -> quiet s1 s3.
Proof. unfold quiet. intros (? & ? & ? & ?) (? & ? & ? & ?). repeat split; congruence. Qed.

Lemma touches_refl s : touches_open_file s s.
Proof. repeat split. Qed.

Lemma touches_trans s1 s2 s3 :
  touches_open_file s1 s2 -> touches_open_file s2 s3 -> touches_open_file s1 s3.
Proof.
  unfold touches_open_file. intros (H1 & ? & ? & Ha) (H2 & ? & ? & ?).
  repeat split; try congruence.
  intros q Hq. rewrite H2 by congruence. apply H1. exact Hq.
Qed.

Lemma quiet_touches s s' : quiet s s' -> touches_open_file s s'.
Proof. intros (Hfs & ? & ? & ?). repeat split; auto. intros q _. now rewrite Hfs. Qed.

Lemma touches_count_refl s : touches_open_file_and_count s s.
Proof. repeat split. Qed.

Lemma touches_count_trans s1 s2 s3 :
  touches_open_file_and_count s1 s2 -> touches_open_file_and_count s2 s3 ->
  touches_open_file_and_count s1 s3.
Proof.
  unfold touches_open_file_and_count. intros (H1 & ? & Ha) (H2 & ? & ?).
  repeat split; try congruence.
  intros q Hq. rewrite H2 by congruence. apply H1. exact Hq.
Qed.

Lemma touches_touches_count s s' :
  touches_open_file s s' -> touches_open_file_and_count s s'.
Proof. intros (? & ? & ? & ?). repeat split; auto. Qed.

(** *** The stream operations *)

Lemma is_open_quiet : preserves quiet ios.is_open.
Proof. intros s. explore_from s; repeat split. Qed.

Lemma fail_quiet : preserves quiet ios.fail.
Proof. intros s. explore_from s; repeat split. Qed.

Lemma eof_quiet : preserves quiet ios.eof.
Proof. intros s. explore_from s; repeat split. Qed.

Lemma clear_quiet : preserves quiet ios.clear.
Proof. intros s. explore_from s; repeat split. Qed.

Lemma flush_quiet : preserves quiet ios.flush.
Proof. intros s. explore_from s; repeat split. Qed.

Lemma get_pageCount_quiet : preserves quiet get_pageCount.
Proof. intros s. apply quiet_refl. Qed.

Lemma seekp_quiet off dir : preserves quiet (ios.seekp off dir).
Proof. intros s. explore_from s; repeat split. Qed.

Lemma seekg_quiet off dir : preserves quiet (ios.seekg off dir).
Proof. intros s. explore_from s; repeat split. Qed.

Lemma tellg_quiet : preserves quiet ios.tellg.
Proof. intros s. explore_from s; repeat split. Qed.

Lemma read_quiet buffer n : preserves quiet (ios.read buffer n).
Proof. intros s. explore_from s; repeat split. Qed.

Lemma write_touches buffer n : preserves touches_open_file (ios.write buffer n).
Proof.
  intros s. explore_from s; repeat split; try done;
    intros q Hq; cbn [fs world self file assoc] in *;
    rewrite ?lookup_insert_ne by congruence; reflexivity.
Qed.

Lemma open_opens name mode : preserves (opens name) (ios.open name mode).
Proof.
  intros s. explore_from s; repeat split; auto;
    intros q Hq; cbn [fs world self file assoc] in *;
    rewrite ?lookup_insert_ne by congruence; reflexivity.
Qed.

Lemma close_closes : preserves closes ios.close.
Proof. intros s. explore_from s; repeat split. Qed.

(** *** The member functions *)

Create HintDb quiet_ops discriminated.

#[local] Hint Resolve is_open_quiet fail_quiet eof_quiet clear_quiet flush_quiet
  get_pageCount_quiet seekp_quiet seekg_quiet tellg_quiet read_quiet : quiet_ops.

(** Splits a run into its steps, for a reflexive and transitive relation. *)
Ltac frame Hrefl Htrans base :=
  repeat first
    [ solve [base]
    | apply preserves_ret; exact Hrefl
    | apply preserves_bind; [exact Htrans | | intros ?]
    | match goal with
      | |- preserves _ (if ?b then _ else _) => destruct b
      end ].

Lemma readPage_preserves_quiet n buffer : preserves quiet (readPage n buffer).
Proof.
  unfold readPage.
  frame quiet_refl quiet_trans ltac:(eauto with quiet_ops).
Qed.

(** X7. [readPage] changes no file, and neither the page count, the file name
    nor the association of the stream, whatever the state of the manager and
    whichever requests fail. *)
Theorem readPage_changes_nothing (n : Z) (buffer : option (list byte)) (s : State) :
  let s' := snd (readPage n buffer s) in
  fs (world s') = fs (world s) /\
  pageCount (self s') = pageCount (self s) /\
  filename (self s') = filename (self s) /\
  assoc (file (self s')) = assoc (file (self s)).
Proof. exact (readPage_preserves_quiet n buffer s). Qed.

Ltac touches_base :=
  first [ apply write_touches
        | apply (preserves_weaken quiet); [exact quiet_touches | eauto with quiet_ops] ].

Lemma writePage_preserves_touches n buffer :
  preserves touches_open_file (writePage n buffer).
Proof.
  unfold writePage.
  frame touches_refl touches_trans ltac:(touches_base).
Qed.

(** X8. [writePage] changes no file other than the one the stream is open on,
    and neither the page count, the file name nor the association of the
    stream, whatever the state of the manager and whichever requests fail. *)
Theorem writePage_touches_only_open_file (n : Z) (buffer : option (list byte))
    (s : State) :
  let s' := snd (writePage n buffer s) in
  (forall q, assoc (file (self s)) <> Some q ->
             fs (world s') !! q = fs (world s) !! q) /\
  pageCount (self s') = pageCount (self s) /\
  filename (self s') = filename (self s) /\
  assoc (file (self s')) = assoc (file (self s)).
Proof. exact (writePage_preserves_touches n buffer s). Qed.

Lemma allocatePage_effect (x : Z) (s : State) :
  let r := allocatePage x s in
  (assoc (file (self s)) <> None ->
     snd (fst r) = pageCount (self s) /\
     pageCount (self (snd r)) = u32 (pageCount (self s) + 1)) /\
  (assoc (file (self s)) = None -> r = ((FILE_IO_ERROR, x), s)) /\
  (forall q, assoc (file (self s)) <> Some q ->
             fs (world (snd r)) !! q = fs (world s) !! q) /\
  assoc (file (self (snd r))) = assoc (file (self s)).
Proof.
  destruct s as [[[a pos st] fn pc] [files fl]]. cbv zeta.
  destruct a as [p|].
  - set (s0 := mk_State (mk_StorageManager (mk_fstream (Some p) pos st) fn pc)
                 (mk_World files fl)).
    unfold allocatePage, bind, writeZeroPage.
    change (ios.is_open s0) with (true, s0). cbv beta iota.
    cbv beta iota delta [negb get_pageCount set_pageCount ret s0
                         self world file filename pageCount assoc fs].
    pose proof (writePage_preserves_touches pc (Some zeroPage)
      (mk_State (mk_StorageManager (mk_fstream (Some p) pos st) fn (u32 (pc + 1)))
         (mk_World files fl))) as (Hfs & Hpc & Hfn & Ha).
    cbn [self file assoc pageCount filename world fs] in Hfs, Hpc, Hfn, Ha.
    destruct (writePage pc (Some zeroPage) _) as [rc s'].
    cbn [fst snd] in *.
    split; [intros _; split; [reflexivity | exact Hpc]|].
    split; [intros H; discriminate H|]. split; [exact Hfs | exact Ha].
  - unfold_model. split; [intros H; contradiction|]. repeat split.
Qed.

(** X9. [allocatePage], whatever it returns: when the stream is open, the page
    number handed back is the old page count and the page count becomes the
    old one plus one (modulo 2^32); when it is closed, the caller's variable
    and the page count keep their values.  No file other than the one the
    stream is open on changes. *)
Theorem allocatePage_counts_every_attempt (x : Z) (s : State) :
  let r := allocatePage x s in
  (assoc (file (self s)) <> None ->
     snd (fst r) = pageCount (self s) /\
     pageCount (self (snd r)) = u32 (pageCount (self s) + 1)) /\
  (assoc (file (self s)) = None -> r = ((FILE_IO_ERROR, x), s)) /\
  (forall q, assoc (file (self s)) <> Some q ->
             fs (world (snd r)) !! q = fs (world s) !! q) /\
  assoc (file (self (snd r))) = assoc (file (self s)).
Proof. exact (allocatePage_effect x s). Qed.

Lemma allocatePage_counts_every_attempt_witness :
  (assoc (file (self disk_full_store)) <> None) /\
  fst (fst (allocatePage 0 disk_full_store)) = FILE_IO_ERROR /\
  snd (fst (allocatePage 0 disk_full_store)) = 1 /\
  pageCount (self (snd (allocatePage 0 disk_full_store))) = 2.
Proof.
  assert (H : assoc (file (self disk_full_store)) <> None) by (vm_compute; discriminate).
  split; [exact H|]. split; [vm_compute; reflexivity|].
  apply (proj1 (allocatePage_counts_every_attempt 0 disk_full_store)). exact H.
Defined.

(** *** [open] *)

Lemma bind_run {A B} (m : M A) (k : A -> M B) s :
  bind m k s = k (fst (m s)) (snd (m s)).
Proof. unfold bind. destruct (m s). reflexivity. Qed.

Lemma opening_quiet fname files s s' :
  quiet s s' -> opening fname files s -> opening fname files s'.
Proof.
  intros (Hfs & _ & Hfn & Ha) (H1 & H2 & H3). unfold opening.
  rewrite Hfs, Hfn, Ha. auto.
Qed.

Lemma opening_touches fname files s s' :
  touches_open_file s s' -> opening fname files s -> opening fname files s'.
Proof.
  intros (Hfs & _ & Hfn & Ha) (H1 & H2 & H3). unfold opening.
  rewrite Hfn, Ha. repeat split; auto.
  intros q Hq. rewrite Hfs; [apply H1; exact Hq|].
  destruct H3 as [-> | ->]; congruence.
Qed.

Lemma opening_opens fname files s s' :
  opens fname s s' -> opening fname files s -> opening fname files s'.
Proof.
  intros (Hfs & _ & Hfn & Ha) (H1 & H2 & H3). unfold opening.
  rewrite Hfn. repeat split; auto.
  - intros q Hq. rewrite Hfs by exact Hq. apply H1. exact Hq.
  - destruct Ha as [-> | ->]; auto.
Qed.

Lemma opening_closes fname files s s' :
  closes s s' -> opening fname files s -> opening fname files s'.
Proof.
  intros (Hfs & _ & Hfn & Ha) (H1 & H2 & H3). unfold opening.
  rewrite Hfs, Hfn, Ha. auto.
Qed.

Lemma set_pageCount_opening fname files n :
  keeps (opening fname files) (set_pageCount n).
Proof. intros s H. exact H. Qed.

Ltac opening_base :=
  first
    [ apply set_pageCount_opening
    | eapply keeps_of_preserves; [apply opening_opens | apply open_opens]
    | apply (keeps_of_preserves closes); [apply opening_closes | apply close_closes]
    | apply (keeps_of_preserves touches_open_file);
        [apply opening_touches | apply write_touches]
    | apply (keeps_of_preserves quiet); [apply opening_quiet | eauto with quiet_ops] ].

Ltac frame_keeps base :=
  repeat first
    [ solve [base]
    | apply keeps_ret
    | apply keeps_bind; [| intros ?]
    | match goal with
      | |- keeps _ (if ?b then _ else _) => destruct b
      end ].

Lemma open_codes e fname s :
  fst (open e fname s) = SUCCESS \/ fst (open e fname s) = FILE_IO_ERROR.
Proof. unfold open, bind, ret. split_run; simpl; auto. Qed.

(** X10. [open] returns [SUCCESS] or [FILE_IO_ERROR], records the name in
    [filename] also when it fails, and changes no file other than the one
    named; on a manager whose stream is already open it returns
    [FILE_IO_ERROR] and changes no file at all.  This holds whatever the
    state of the manager and whichever requests fail. *)
Theorem open_touches_only_named_file (e : endianness) (fname : string) (s : State) :
  let r := open e fname s in
  (fst r = SUCCESS \/ fst r = FILE_IO_ERROR) /\
  filename (self (snd r)) = fname /\
  (forall q, q <> fname -> fs (world (snd r)) !! q = fs (world s) !! q) /\
  (assoc (file (self s)) <> None ->
     fst r = FILE_IO_ERROR /\ fs (world (snd r)) = fs (world s)).
Proof.
  cbv zeta. split; [apply open_codes|].
  destruct s as [[[a pos st] fn pc] [files fl]]. destruct a as [p|].
  - change (mk_State _ _) with (open_state p pos st fn pc files fl).
    rewrite open_already_open. cbn [fst snd open_state self world filename fs].
    split; [reflexivity|]. split; [intros q _; reflexivity|].
    intros _. split; reflexivity.
  - assert (H : opening fname files
                  (snd (open e fname
                          (mk_State (mk_StorageManager (mk_fstream None pos st) fn pc)
                             (mk_World files fl))))).
    { unfold open. rewrite bind_run.
      match goal with
      | |- opening _ _ (snd (?rest ?s1)) =>
          enough (Hk : keeps (opening fname files) rest)
            by (apply Hk; repeat split; auto)
      end.
      frame_keeps opening_base. }
    destruct H as (H1 & H2 & _).
    split; [exact H2|]. split; [exact H1|]. intros Hne. contradiction.
Qed.

Lemma open_touches_only_named_file_witness :
  (assoc (file (self scenario_store)) <> None) /\
  fst (open LittleEndian "other.db" scenario_store) = FILE_IO_ERROR /\
  fs (world (snd (open LittleEndian "other.db" scenario_store))) =
    fs (world scenario_store).
Proof.
  assert (H : assoc (file (self scenario_store)) <> None) by (vm_compute; discriminate).
  split; [exact H|].
  apply (proj2 (proj2 (proj2
           (open_touches_only_named_file LittleEndian "other.db" scenario_store)))).
  exact H.
Defined.

(** *** [close], and a closed manager *)

(** X11. [close] returns [SUCCESS] whatever happens, leaves the stream closed,
    and keeps the files, the page count and the file name. *)
Theorem close_always_succeeds (s : State) :
  let r := close s in
  fst r = SUCCESS /\
  assoc (file (self (snd r))) = None /\
  fs (world (snd r)) = fs (world s) /\
  pageCount (self (snd r)) = pageCount (self s) /\
  filename (self (snd r)) = filename (self s).
Proof. cbv zeta. explore_from s; repeat split. Qed.

(** X12. On a manager whose stream is closed, [readPage] and [writePage] return
    [INVALID_INPUT], [allocatePage] and [freePage] return [FILE_IO_ERROR],
    [close] returns [SUCCESS], and none of them changes anything: the page
    count of the last open stays readable through [getPageCount]. *)
Theorem closed_manager_refuses (s : State) (n x : Z) (buffer : option (list byte)) :
  assoc (file (self s)) = None ->
  readPage n buffer s = ((INVALID_INPUT, buffer), s) /\
  writePage n buffer s = (INVALID_INPUT, s) /\
  allocatePage x s = ((FILE_IO_ERROR, x), s) /\
  freePage n s = (FILE_IO_ERROR, s) /\
  close s = (SUCCESS, s) /\
  getPageCount s = (pageCount (self s), s).
Proof.
  intros Ha.
  split; [apply readPage_guard; left; exact Ha|].
  split; [apply writePage_guard; left; exact Ha|].
  destruct s as [[[a pos st] fn pc] [files fl]]. simpl in Ha. subst a.
  repeat split.
Qed.

Lemma closed_manager_refuses_witness :
  assoc (file (self (snd (close scenario_store)))) = None /\
  allocatePage 7 (snd (close scenario_store)) =
    ((FILE_IO_ERROR, 7), snd (close scenario_store)) /\
  getPageCount (snd (close scenario_store)) = (2, snd (close scenario_store)).
Proof.
  split; [reflexivity|].
  pose proof (closed_manager_refuses (snd (close scenario_store)) 1 7
                (Some zeroPage) eq_refl) as (_ & _ & Halloc & _ & _ & Hcount).
  split; [exact Halloc | exact Hcount].
Defined.

(** *** [freePage] *)

(** X13. A [freePage] that returns [SUCCESS] changes nothing and reclaims
    nothing: the page number is below the page count, and the next
    [allocatePage] hands out the page count, not the page freed. *)
Theorem freePage_reclaims_nothing (n x : Z) (s : State) :
  fst (freePage n s) = SUCCESS ->
  snd (freePage n s) = s /\
  n < pageCount (self s) /\
  snd (fst (allocatePage x (snd (freePage n s)))) = pageCount (self s).
Proof.
  intros Hrc. split; [apply freePage_state|]. rewrite freePage_state.
  destruct s as [[[a pos st] fn pc] [files fl]]. destruct a as [p|].
  - split.
    + revert Hrc. unfold_model.
      destruct (pc <=? n) eqn:Hle; [discriminate | intros _; lia].
    + apply (proj1 (allocatePage_effect x _)). discriminate.
  - revert Hrc. unfold_model. discriminate.
Qed.

(* ------------------------------------------------------------------------- *)
(** ** Stores across calls *)
(* ------------------------------------------------------------------------- *)

Lemma freePage_reclaims_nothing_witness :
  fst (freePage 1 scenario_store) = SUCCESS /\
  snd (freePage 1 scenario_store) = scenario_store /\
  1 < pageCount (self scenario_store) /\
  snd (fst (allocatePage 0 (snd (freePage 1 scenario_store)))) =
    pageCount (self scenario_store).
Proof.
  split; [reflexivity|].
  apply (freePage_reclaims_nothing 1 0 scenario_store). reflexivity.
Defined.

Lemma store_ok_intro p pos fn pc files c :
  files !! p = Some c -> Z.of_nat (length c) = PAGE_SIZE * pc -> 0 <= pc < 2 ^ 32 ->
  store_ok (open_state p pos goodbit fn pc files []).
Proof. intros Hc Hlen Hpc. exists p, c. simpl. repeat split; auto; lia. Qed.

(** X14. [open] on an existing file of a whole number of pages accepts it
    whatever it holds (the magic number is not looked at): it returns
    [SUCCESS], changes no file, sets the page count to the size divided by
    4096 and leaves the store in order. *)
Theorem open_accepts_any_whole_pages (e : endianness) (path : string) (s : State)
    (c : list byte) :
  assoc (file (self s)) = None ->
  faults (world s) = [] ->
  fs (world s) !! path = Some c ->
  Z.of_nat (length c) mod PAGE_SIZE = 0 ->
  Z.of_nat (length c) / PAGE_SIZE < 2 ^ 32 ->
  exists s',
    open e path s = (SUCCESS, s') /\
    fs (world s') = fs (world s) /\
    getPageCount s' = (Z.of_nat (length c) / PAGE_SIZE, s') /\
    store_ok s'.
Proof.
  destruct s as [[[a pos st] fn pc] [files fl]]. simpl.
  intros -> -> Hc Hmod Hsmall.
  assert (Hq : 0 <= Z.of_nat (length c) / PAGE_SIZE).
  { apply Z.div_pos; [lia | reflexivity]. }
  eexists. split; [apply (open_existing e path pos st fn pc files c Hc Hmod)|].
  rewrite u32_small by lia.
  split; [reflexivity|]. split; [reflexivity|].
  apply store_ok_intro with (c := c); [exact Hc | | lia].
  rewrite Z.mul_comm. apply Z.mod_divide in Hmod; [|discriminate].
  destruct Hmod as [q ->]. rewrite Z.div_mul by discriminate. reflexivity.
Qed.

Lemma open_accepts_any_whole_pages_witness :
  (assoc (file (self (fresh_manager foreign_file))) = None /\
   fs (world (fresh_manager foreign_file)) !! "x.db" = Some pattern_AA /\
   u32_of_bytes LittleEndian pattern_AA <> Some MAGIC_NUMBER) /\
  exists s',
    open LittleEndian "x.db" (fresh_manager foreign_file) = (SUCCESS, s') /\
    fs (world s') = foreign_file /\
    getPageCount s' = (1, s') /\
    store_ok s'.
Proof.
  split; [split; [reflexivity | split; [reflexivity | vm_compute; discriminate]]|].
  apply (open_accepts_any_whole_pages LittleEndian "x.db" (fresh_manager foreign_file)
           pattern_AA); reflexivity.
Defined.

Lemma reopen_in_order e p pos st fn pc0 pc files c :
  files !! p = Some c -> Z.of_nat (length c) = PAGE_SIZE * pc -> 0 <= pc < 2 ^ 32 ->
  open e p (mk_State (mk_StorageManager (mk_fstream None pos st) fn pc0)
              (mk_World files [])) =
  (SUCCESS, open_state p (Z.of_nat (length c)) goodbit p pc files []).
Proof.
  intros Hc Hlen Hpc.
  rewrite (open_existing e p pos st fn pc0 files c Hc).
  - rewrite Hlen, Z.mul_comm, Z.div_mul by discriminate.
    rewrite u32_small by exact Hpc. reflexivity.
  - rewrite Hlen, Z.mul_comm. apply Z.mod_mul. discriminate.
Qed.

(** X15. The page count survives [close] and [open]: on a store in order,
    [close] followed by [open] on the same path returns [SUCCESS] twice,
    changes no file, and gives the same page count and a store in order. *)
Theorem close_open_keeps_page_count (e : endianness) (p : string) (s : State) :
  store_ok s ->
  assoc (file (self s)) = Some p ->
  exists s1 s2,
    close s = (SUCCESS, s1) /\
    open e p s1 = (SUCCESS, s2) /\
    fs (world s2) = fs (world s) /\
    pageCount (self s2) = pageCount (self s) /\
    store_ok s2.
Proof.
  intros Hok Hp.
  destruct (store_ok_explicit s p Hok Hp)
    as (pos & fn & pc & files & c & -> & Hc & Hlen & Hpc).
  do 2 eexists. split; [apply close_open_stream|].
  split; [apply (reopen_in_order e p 0 goodbit fn pc pc files c Hc Hlen Hpc)|].
  split; [reflexivity|]. split; [reflexivity|].
  apply store_ok_intro with (c := c); assumption.
Qed.

Lemma close_open_keeps_page_count_witness :
  (store_ok scenario_store /\ assoc (file (self scenario_store)) = Some "db.dat") /\
  exists s1 s2,
    close scenario_store = (SUCCESS, s1) /\
    open LittleEndian "db.dat" s1 = (SUCCESS, s2) /\
    fs (world s2) = fs (world scenario_store) /\
    pageCount (self s2) = pageCount (self scenario_store) /\
    store_ok s2.
Proof.
  split; [split; [exact scenario_store_ok | reflexivity]|].
  apply (close_open_keeps_page_count LittleEndian "db.dat" scenario_store
           scenario_store_ok).
  reflexivity.
Defined.

Lemma pwrite_inside off data c :
  (off + length data <= length c)%nat ->
  pwrite off data c = take off c ++ data ++ drop (off + length data) c.
Proof.
  intros H. unfold pwrite. rewrite take_app_le by lia. reflexivity.
Qed.

Lemma pread_pwrite_other off1 off2 k data c :
  (off1 + length data <= length c)%nat ->
  (off2 + k <= off1 \/ off1 + length data <= off2)%nat ->
  pread off2 k (pwrite off1 data c) = pread off2 k c.
Proof.
  intros Hin Hdisj. rewrite pwrite_inside by exact Hin. unfold pread.
  destruct Hdisj as [Hbefore | Hafter].
  - rewrite !take_drop_commute. f_equal.
    rewrite take_app_le by (rewrite length_take; lia).
    rewrite take_take. f_equal. lia.
  - f_equal.
    rewrite drop_app_ge by (rewrite length_take; lia).
    rewrite length_take, Nat.min_l by lia.
    rewrite drop_app_ge by lia.
    rewrite drop_drop. f_equal. lia.
Qed.

Lemma pread_app_l off k (c d : list byte) :
  (off + k <= length c)%nat -> pread off k (c ++ d) = pread off k c.
Proof.
  intros H. unfold pread. rewrite !take_drop_commute. f_equal.
  apply take_app_le. lia.
Qed.

Lemma pread_app_r k (c d : list byte) :
  length d = k -> pread (length c) k (c ++ d) = d.
Proof.
  intros H. unfold pread. rewrite drop_app_length. apply take_ge. lia.
Qed.

(** Reading page [m] of a good store with no failure ahead, when the page
    lies within the file. *)
Lemma readPage_page p pos fn pc files c m buf :
  files !! p = Some c -> 0 <= m < pc -> pc <= 2 ^ 20 ->
  Z.of_nat (length c) = PAGE_SIZE * pc ->
  Z.of_nat (length buf) = PAGE_SIZE ->
  fst (readPage m (Some buf) (open_state p pos goodbit fn pc files [])) =
  (SUCCESS, Some (page_of c m)).
Proof.
  intros Hc Hm Hpc Hlen Hbuf.
  pose proof (page_offset_fits m pc c Hm Hlen) as Hfit.
  rewrite (readPage_ok p fn pos pc files c m Hc Hm buf []) by (split; reflexivity).
  cbn [fst]. rewrite page_offset_exact in * by lia.
  unfold page_of. rewrite memcpy_full; [reflexivity|].
  rewrite (pread_full _ _ _ Hfit). pose proof PAGE_BYTES_eq. lia.
Qed.

(** X16. Pages do not interfere.  In a store in order of at most 2^20 pages,
    [writePage n b] returns [SUCCESS]; afterwards [readPage n] delivers [b]
    and, for every other page [m], [readPage m] delivers what page [m]
    held before. *)
Theorem writePage_changes_one_page (p : string) (s : State) (c b : list byte)
    (n : Z) :
  in_order 0 s ->
  assoc (file (self s)) = Some p ->
  fs (world s) !! p = Some c ->
  0 <= n < pageCount (self s) ->
  Z.of_nat (length b) = PAGE_SIZE ->
  exists s1,
    writePage n (Some b) s = (SUCCESS, s1) /\
    forall m buf,
      0 <= m < pageCount (self s) -> Z.of_nat (length buf) = PAGE_SIZE ->
      fst (readPage m (Some buf) s1) =
        (SUCCESS, Some (if decide (m = n) then b else page_of c m)).
Proof.
  intros Hs Hp Hc Hn Hb.
  destruct (in_order_elim 0 s Hs)
    as (p' & pos & fn & pc & files & c' & -> & Hc' & Hlen & Hpc & Hmax).
  simpl in Hp, Hc, Hn. injection Hp as ->. rewrite Hc' in Hc. injection Hc as ->.
  assert (Hb' : length b = PAGE_BYTES) by (pose proof PAGE_BYTES_eq; lia).
  pose proof (page_offset_fits n pc c Hn Hlen) as Hfit.
  eexists. split.
  { apply writePage_ok; [exact Hc' | exact Hn | exact Hb' | split; reflexivity]. }
  intros m buf Hm Hbuf. cbn [tl open_state self pageCount] in *.
  set (c1 := pwrite (Z.to_nat (page_offset n)) b c).
  assert (Hlen1 : Z.of_nat (length c1) = PAGE_SIZE * pc).
  { unfold c1. rewrite pwrite_inside_length by (rewrite Hb'; exact Hfit). exact Hlen. }
  rewrite (readPage_page p _ fn pc _ c1 m buf (lookup_insert_eq _ _ _))
    by (assumption || lia).
  do 2 f_equal. unfold page_of, c1.
  rewrite (page_offset_exact n) in * by lia.
  pose proof PAGE_BYTES_eq as HP. unfold PAGE_SIZE in *.
  destruct (decide (m = n)) as [-> | Hne].
  - rewrite <- Hb'. apply pread_pwrite.
  - apply pread_pwrite_other; [lia|].
    destruct (Z.lt_ge_cases m n); [left | right]; lia.
Qed.

Lemma scenario_store_in_order : in_order 0 scenario_store.
Proof.
  split; [exact scenario_store_ok|]. vm_compute. split; discriminate.
Qed.

Lemma writePage_changes_one_page_witness :
  (in_order 0 scenario_store /\
   assoc (file (self scenario_store)) = Some "db.dat" /\
   fs (world scenario_store) !! "db.dat" = Some (header_page LittleEndian ++ zeroPage) /\
   0 <= 1 < pageCount (self scenario_store) /\
   Z.of_nat (length pattern_AA) = PAGE_SIZE) /\
  exists s1,
    writePage 1 (Some pattern_AA) scenario_store = (SUCCESS, s1) /\
    forall m buf,
      0 <= m < pageCount (self scenario_store) -> Z.of_nat (length buf) = PAGE_SIZE ->
      fst (readPage m (Some buf) s1) =
        (SUCCESS,
         Some (if decide (m = 1) then pattern_AA
               else page_of (header_page LittleEndian ++ zeroPage) m)).
Proof.
  assert (Hn : 0 <= 1 < pageCount (self scenario_store)).
  { vm_compute. split; [discriminate | reflexivity]. }
  split; [split; [exact scenario_store_in_order | split; [reflexivity | split;
    [reflexivity | split; [exact Hn | reflexivity]]]]|].
  apply (writePage_changes_one_page "db.dat" scenario_store
           (header_page LittleEndian ++ zeroPage) pattern_AA 1
           scenario_store_in_order);
    [reflexivity | reflexivity | exact Hn | reflexivity].
Defined.

(** X17. In a store in order with room below 2^20 pages, [allocatePage] returns
    [SUCCESS]; afterwards every page that existed reads as before and the
    new page reads as 4096 zero bytes. *)
Theorem allocatePage_keeps_pages (p : string) (s : State) (c : list byte) (x : Z) :
  in_order 1 s ->
  assoc (file (self s)) = Some p ->
  fs (world s) !! p = Some c ->
  exists s1,
    allocatePage x s = ((SUCCESS, pageCount (self s)), s1) /\
    forall m buf,
      0 <= m <= pageCount (self s) -> Z.of_nat (length buf) = PAGE_SIZE ->
      fst (readPage m (Some buf) s1) =
        (SUCCESS,
         Some (if decide (m = pageCount (self s)) then replicate 4096 x00
               else page_of c m)).
Proof.
  intros Hs Hp Hc.
  destruct (in_order_elim 1 s Hs)
    as (p' & pos & fn & pc & files & c' & -> & Hc' & Hlen & Hpc & Hmax).
  simpl in Hp, Hc. injection Hp as ->. rewrite Hc' in Hc. injection Hc as ->.
  cbn [open_state self pageCount].
  rewrite (allocatePage_ok p pos fn pc files c [] x Hc' Hpc)
    by first [lia | split; reflexivity].
  assert (Hoff : Z.to_nat (page_offset pc) = length c).
  { rewrite page_offset_exact by lia. lia. }
  rewrite Hoff, pwrite_at_end. cbn [tl].
  eexists. split; [reflexivity|].
  intros m buf Hm Hbuf.
  assert (Hlen1 : Z.of_nat (length (c ++ zeroPage)) = PAGE_SIZE * (pc + 1)).
  { rewrite length_app, length_zeroPage. pose proof PAGE_BYTES_eq. lia. }
  rewrite (readPage_page p _ fn (pc + 1) _ (c ++ zeroPage) m buf (lookup_insert_eq _ _ _))
    by (assumption || lia).
  do 2 f_equal. unfold page_of.
  pose proof PAGE_BYTES_eq as HP. unfold PAGE_SIZE in *.
  destruct (decide (m = pc)) as [-> | Hne].
  - replace (Z.to_nat (pc * 4096)) with (length c) by lia.
    apply pread_app_r. apply length_zeroPage.
  - apply pread_app_l. lia.
Qed.

Lemma allocatePage_keeps_pages_witness :
  (in_order 1 scenario_store /\
   assoc (file (self scenario_store)) = Some "db.dat" /\
   fs (world scenario_store) !! "db.dat" = Some (header_page LittleEndian ++ zeroPage)) /\
  exists s1,
    allocatePage 0 scenario_store = ((SUCCESS, pageCount (self scenario_store)), s1) /\
    forall m buf,
      0 <= m <= pageCount (self scenario_store) -> Z.of_nat (length buf) = PAGE_SIZE ->
      fst (readPage m (Some buf) s1) =
        (SUCCESS,
         Some (if decide (m = pageCount (self scenario_store)) then replicate 4096 x00
               else page_of (header_page LittleEndian ++ zeroPage) m)).
Proof.
  assert (Hs : in_order 1 scenario_store).
  { split; [exact scenario_store_ok|]. vm_compute. split; discriminate. }
  split; [split; [exact Hs | split; reflexivity]|].
  apply (allocatePage_keeps_pages "db.dat" scenario_store
           (header_page LittleEndian ++ zeroPage) 0 Hs); reflexivity.
Defined.

(* ------------------------------------------------------------------------- *)
(** ** Edges of the page store *)
(* ------------------------------------------------------------------------- *)

(** X18. At the largest page count, 2^32 - 1, [allocatePage] on an open stream
    fails with [INVALID_INPUT] without any request to the operating system:
    the page count wraps to 0, and from then on every [readPage] and
    [writePage] is refused. *)
Theorem allocatePage_wraps_page_count (x : Z) (s : State) :
  assoc (file (self s)) <> None ->
  pageCount (self s) = 2 ^ 32 - 1 ->
  exists s1,
    allocatePage x s = ((INVALID_INPUT, 2 ^ 32 - 1), s1) /\
    getPageCount s1 = (0, s1) /\
    world s1 = world s /\
    forall n buffer, 0 <= n ->
      readPage n buffer s1 = ((INVALID_INPUT, buffer), s1) /\
      writePage n buffer s1 = (INVALID_INPUT, s1).
Proof.
  destruct s as [[[a pos st] fn pc] [files fl]]. simpl.
  intros Ha ->. destruct a as [p|]; [|contradiction].
  assert (H1 : (u32 (2 ^ 32 - 1 + 1) <=? 2 ^ 32 - 1) = true) by reflexivity.
  eexists. split.
  { run_model ltac:(rewrite ?H1). reflexivity. }
  change (u32 (2 ^ 32 - 1 + 1)) with 0.
  split; [reflexivity|]. split; [reflexivity|].
  intros n buffer Hn.
  split; [apply readPage_guard | apply writePage_guard]; right; right; simpl; lia.
Qed.

Lemma allocatePage_wraps_page_count_witness :
  (assoc (file (self full_count_store)) <> None /\
   pageCount (self full_count_store) = 2 ^ 32 - 1) /\
  exists s1,
    allocatePage 0 full_count_store = ((INVALID_INPUT, 2 ^ 32 - 1), s1) /\
    getPageCount s1 = (0, s1) /\
    world s1 = world full_count_store /\
    forall n buffer, 0 <= n ->
      readPage n buffer s1 = ((INVALID_INPUT, buffer), s1) /\
      writePage n buffer s1 = (INVALID_INPUT, s1).
Proof.
  assert (Ha : assoc (file (self full_count_store)) <> None) by discriminate.
  split; [split; [exact Ha | reflexivity]|].
  apply (allocatePage_wraps_page_count 0 full_count_store Ha). reflexivity.
Defined.

(** X19. A second [open] spoils an open store until it is closed.  On a store
    in order, [open] (on any name) returns [FILE_IO_ERROR]; after it
    [readPage] and [writePage] on a page below the page count return
    [FILE_IO_ERROR] and no file has changed; [close] followed by [open] on
    the path of the store returns [SUCCESS] and the store is in order
    again, with the same page count. *)
Theorem second_open_spoils_until_reopened (e : endianness) (p fname : string)
    (s : State) (n : Z) (b : list byte) :
  store_ok s ->
  assoc (file (self s)) = Some p ->
  0 <= n < pageCount (self s) ->
  exists s1 s2 s3,
    open e fname s = (FILE_IO_ERROR, s1) /\
    fst (fst (readPage n (Some b) s1)) = FILE_IO_ERROR /\
    fst (writePage n (Some b) s1) = FILE_IO_ERROR /\
    fs (world (snd (writePage n (Some b) s1))) = fs (world s) /\
    close s1 = (SUCCESS, s2) /\
    open e p s2 = (SUCCESS, s3) /\
    store_ok s3 /\
    pageCount (self s3) = pageCount (self s).
Proof.
  intros Hok Hp Hn.
  destruct (store_ok_explicit s p Hok Hp)
    as (pos & fn & pc & files & c & -> & Hc & Hlen & Hpc).
  simpl in Hn.
  do 3 eexists. split; [apply open_already_open|].
  cbn [badbit goodbit].
  rewrite (readPage_stream_failed p fname pos pc files n Hn b _ []) by reflexivity.
  rewrite (writePage_stream_failed p fname pos pc files n Hn b _ []) by reflexivity.
  split; [reflexivity|]. split; [reflexivity|]. split; [reflexivity|].
  split; [apply close_open_stream|].
  split; [apply (reopen_in_order e p 0 _ fname pc pc files c Hc Hlen Hpc)|].
  split; [apply store_ok_intro with (c := c); assumption | reflexivity].
Qed.

Lemma second_open_spoils_until_reopened_witness :
  (store_ok scenario_store /\
   assoc (file (self scenario_store)) = Some "db.dat" /\
   0 <= 1 < pageCount (self scenario_store)) /\
  exists s1 s2 s3,
    open LittleEndian "db.dat" scenario_store = (FILE_IO_ERROR, s1) /\
    fst (fst (readPage 1 (Some zeroPage) s1)) = FILE_IO_ERROR /\
    fst (writePage 1 (Some zeroPage) s1) = FILE_IO_ERROR /\
    fs (world (snd (writePage 1 (Some zeroPage) s1))) = fs (world scenario_store) /\
    close s1 = (SUCCESS, s2) /\
    open LittleEndian "db.dat" s2 = (SUCCESS, s3) /\
    store_ok s3 /\
    pageCount (self s3) = pageCount (self scenario_store).
Proof.
  assert (Hn : 0 <= 1 < pageCount (self scenario_store)).
  { vm_compute. split; [discriminate | reflexivity]. }
  split; [split; [exact scenario_store_ok | split; [reflexivity | exact Hn]]|].
  apply (second_open_spoils_until_reopened LittleEndian "db.dat" "db.dat"
           scenario_store 1 zeroPage scenario_store_ok);
    [reflexivity | exact Hn].
Defined.

(** X20. An [open] refused for the size of the file leaves the stream open on
    that file.  On a fresh manager, the next [allocatePage] then returns
    [SUCCESS] and page number 0, and writes 4096 zero bytes over the start
    of the file that [open] refused. *)
Theorem refused_open_leaves_stream_open (e : endianness) (path : string)
    (s : State) (c : list byte) (x : Z) :
  assoc (file (self s)) = None ->
  pageCount (self s) = 0 ->
  faults (world s) = [] ->
  fs (world s) !! path = Some c ->
  Z.of_nat (length c) mod PAGE_SIZE <> 0 ->
  exists s1 s2,
    open e path s = (FILE_IO_ERROR, s1) /\
    assoc (file (self s1)) = Some path /\
    fs (world s1) = fs (world s) /\
    allocatePage x s1 = ((SUCCESS, 0), s2) /\
    fs (world s2) !! path = Some (replicate 4096 x00 ++ drop 4096 c).
Proof.
  destruct s as [[[a pos st] fn pc] [files fl]]. simpl.
  intros -> -> -> Hc Hmod.
  do 2 eexists.
  split; [apply (open_bad_size e path pos st fn 0 files c Hc Hmod)|].
  split; [reflexivity|]. split; [reflexivity|].
  split.
  { apply (allocatePage_ok path _ path 0 files c [] x Hc); try lia.
    split; reflexivity. }
  cbn [open_state world fs tl]. rewrite lookup_insert_eq. f_equal.
Qed.

Lemma refused_open_leaves_stream_open_witness :
  (assoc (file (self (fresh_manager one_byte_file))) = None /\
   pageCount (self (fresh_manager one_byte_file)) = 0 /\
   faults (world (fresh_manager one_byte_file)) = [] /\
   fs (world (fresh_manager one_byte_file)) !! "t.db" = Some [x2a] /\
   Z.of_nat (length [x2a]) mod PAGE_SIZE <> 0) /\
  exists s1 s2,
    open LittleEndian "t.db" (fresh_manager one_byte_file) = (FILE_IO_ERROR, s1) /\
    assoc (file (self s1)) = Some "t.db" /\
    fs (world s1) = one_byte_file /\
    allocatePage 0 s1 = ((SUCCESS, 0), s2) /\
    fs (world s2) !! "t.db" = Some (replicate 4096 x00 ++ drop 4096 [x2a]).
Proof.
  assert (H : Z.of_nat (length [x2a]) mod PAGE_SIZE <> 0) by (vm_compute; discriminate).
  split; [split; [reflexivity | split; [reflexivity | split; [reflexivity | split;
    [reflexivity | exact H]]]]|].
  apply (refused_open_leaves_stream_open LittleEndian "t.db"
           (fresh_manager one_byte_file) [x2a] 0);
    [reflexivity | reflexivity | reflexivity | reflexivity | exact H].
Defined.

(** X21. A failed allocation is counted until the store is reopened, and a
    write cut short leaves a file that cannot be reopened.  On a good
    stream over a file of [pageCount] pages, when the seek succeeds and the
    write fails after [k] bytes, [k < 4096], [allocatePage] returns
    [FILE_IO_ERROR] and leaves the page count one too high.  When no byte
    was transferred, the file is as it was, and [close] and [open] bring
    the page count back to the number of pages of the file.  When the write
    was cut short inside the page (below 2^20 pages), the file holds [k]
    zero bytes more than its pages, nothing takes them back, and after
    [close] the next [open] returns [FILE_IO_ERROR]. *)
Theorem failed_allocation_counted_until_reopened (e : endianness) (p : string)
    (s : State) (c : list byte) (x : Z) (k : nat) :
  assoc (file (self s)) = Some p ->
  flags (file (self s)) = goodbit ->
  fs (world s) !! p = Some c ->
  Z.of_nat (length c) = PAGE_SIZE * pageCount (self s) ->
  0 <= pageCount (self s) < 2 ^ 32 - 1 ->
  (k < 4096)%nat ->
  faults (world s) = [granted; refused k] ->
  exists s1 s2,
    allocatePage x s = ((FILE_IO_ERROR, pageCount (self s)), s1) /\
    getPageCount s1 = (pageCount (self s) + 1, s1) /\
    close s1 = (SUCCESS, s2) /\
    (k = 0%nat ->
     fs (world s1) = fs (world s) /\
     exists s3,
       open e p s2 = (SUCCESS, s3) /\
       getPageCount s3 = (pageCount (self s), s3) /\
       store_ok s3) /\
    ((0 < k)%nat -> pageCount (self s) < 2 ^ 20 ->
     fs (world s1) = <[p := c ++ replicate k x00]> (fs (world s)) /\
     exists s3,
       open e p s2 = (FILE_IO_ERROR, s3) /\
       getPageCount s3 = (pageCount (self s) + 1, s3)).
Proof.
  destruct s as [[[a pos st] fn pc] [files fl]]. simpl.
  intros -> -> Hc Hlen Hpc Hk ->.
  assert (Hstep : forall rc s',
            writePage pc (Some zeroPage)
              (open_state p pos goodbit fn (pc + 1) files [granted; refused k]) =
              (rc, s') ->
            allocatePage x (open_state p pos goodbit fn pc files [granted; refused k]) =
              ((rc, pc), s')).
  { intros rc s' Hw. unfold allocatePage, bind, writeZeroPage.
    change (ios.is_open (open_state p pos goodbit fn pc files [granted; refused k]))
      with (true, open_state p pos goodbit fn pc files [granted; refused k]).
    cbv beta iota.
    cbv beta iota delta [negb get_pageCount set_pageCount ret
                           open_state self world file filename pageCount].
    rewrite (u32_small (pc + 1)) by lia.
    fold (open_state p pos goodbit fn (pc + 1) files [granted; refused k]).
    rewrite Hw. reflexivity. }
  change (mk_State _ _) with (open_state p pos goodbit fn pc files [granted; refused k]).
  destruct k as [|k].
  - do 2 eexists.
    split; [apply Hstep; apply writePage_write_refused; lia|].
    cbn [fst snd]. split; [reflexivity|]. split; [apply close_open_stream|].
    split; [|intros Hk0; lia].
    intros _. split; [reflexivity|]. eexists.
    split; [apply (reopen_in_order e p 0 _ fn (pc + 1) pc files c Hc Hlen); lia|].
    split; [reflexivity|].
    apply store_ok_intro with (c := c); [exact Hc | exact Hlen | lia].
  - do 2 eexists.
    split; [apply Hstep;
            apply (writePage_write_cut_short p fn pos (pc + 1) files c pc Hc);
            [lia | apply length_zeroPage | unfold PAGE_BYTES, PAGE_SIZE; lia]|].
    cbn [fst snd]. split; [reflexivity|]. split; [apply close_open_stream|].
    split; [intros Hk0; discriminate Hk0|].
    intros _ Hmax.
    assert (Hoff : Z.to_nat (page_offset pc) = length c).
    { rewrite page_offset_exact by lia. lia. }
    assert (Hdata : take (S k) zeroPage = replicate (S k) x00).
    { unfold zeroPage. rewrite take_replicate. f_equal.
      unfold PAGE_BYTES, PAGE_SIZE. lia. }
    rewrite Hoff, pwrite_at_end, Hdata.
    split; [reflexivity|].
    assert (Hodd : Z.of_nat (length (c ++ replicate (S k) x00)) mod PAGE_SIZE <> 0).
    { rewrite length_app, length_replicate, Nat2Z.inj_add, Hlen.
      rewrite Z.add_comm, Z.mul_comm, Z.mod_add by discriminate.
      rewrite Z.mod_small by (unfold PAGE_SIZE; lia). lia. }
    eexists. split.
    + apply open_bad_size; [apply lookup_insert_eq | exact Hodd].
    + reflexivity.
Qed.

Lemma failed_allocation_counted_until_reopened_witness :
  (assoc (file (self torn_write_store)) = Some "db.dat" /\
   flags (file (self torn_write_store)) = goodbit /\
   fs (world torn_write_store) !! "db.dat" = Some (header_page LittleEndian) /\
   faults (world torn_write_store) = [granted; refused 100] /\
   (0 < 100)%nat /\ pageCount (self torn_write_store) < 2 ^ 20) /\
  exists s1 s2,
    allocatePage 0 torn_write_store = ((FILE_IO_ERROR, 1), s1) /\
    getPageCount s1 = (2, s1) /\
    close s1 = (SUCCESS, s2) /\
    fs (world s1) =
      <["db.dat" := header_page LittleEndian ++ replicate 100 x00]>
        (fs (world torn_write_store)) /\
    exists s3,
      open LittleEndian "db.dat" s2 = (FILE_IO_ERROR, s3) /\
      getPageCount s3 = (2, s3).
Proof.
  assert (Hk : (0 < 100)%nat) by lia.
  assert (Hmax : pageCount (self torn_write_store) < 2 ^ 20) by reflexivity.
  split; [split; [reflexivity | split; [reflexivity | split; [reflexivity | split;
    [reflexivity | split; [exact Hk | exact Hmax]]]]]|].
  destruct (failed_allocation_counted_until_reopened LittleEndian "db.dat"
              torn_write_store (header_page LittleEndian) 0 100)
    as (s1 & s2 & Halloc & Hcount & Hclose & _ & Htorn);
    [reflexivity | reflexivity | reflexivity | reflexivity
    | vm_compute; split; [discriminate | reflexivity] | lia | reflexivity |].
  exists s1, s2.
  split; [exact Halloc|]. split; [exact Hcount|]. split; [exact Hclose|].
  exact (Htorn Hk Hmax).
Defined.

(* ------------------------------------------------------------------------- *)
(** ** The program *)
(* ------------------------------------------------------------------------- *)

Lemma close_closed pos st fn pc w :
  close (mk_State (mk_StorageManager (mk_fstream None pos st) fn pc) w) =
  (SUCCESS, mk_State (mk_StorageManager (mk_fstream None pos st) fn pc) w).
Proof. reflexivity. Qed.

(** A run on a file in order: the shared computation. *)
Lemma main_on_pages e newPage argv files c pos k :
  open e (db_file argv) (mk_State StorageManager_default (mk_World files [])) =
    (SUCCESS,
     open_state (db_file argv) pos goodbit (db_file argv) k
       (<[db_file argv := c]> files) []) ->
  Z.of_nat (length c) = PAGE_SIZE * k -> 0 <= k < 2 ^ 20 ->
  main e newPage argv (mk_World files []) =
  mk_run 0 (success_report (db_file argv) k) ""
    (mk_World (<[db_file argv := c ++ zeroPage]> files) []).
Proof.
  intros Hopen Hlen Hk.
  unfold main. fold (db_file argv). rewrite Hopen.
  change (bool_decide (SUCCESS = SUCCESS)) with true. cbn [negb].
  unfold getPageCount at 1, get_pageCount. cbn [open_state self pageCount].
  fold (open_state (db_file argv) pos goodbit (db_file argv) k
          (<[db_file argv := c]> files) []).
  rewrite (allocatePage_ok _ _ _ k _ c [] newPage (lookup_insert_eq _ _ _))
    by first [lia | split; reflexivity].
  change (bool_decide (SUCCESS = SUCCESS)) with true. cbn [negb].
  assert (Hoff : Z.to_nat (page_offset k) = length c).
  { rewrite page_offset_exact by lia. lia. }
  rewrite Hoff, pwrite_at_end, insert_insert_eq. cbn [tl].
  unfold getPageCount, get_pageCount. cbn [open_state self pageCount].
  fold (open_state (db_file argv) (page_offset k + PAGE_SIZE) goodbit (db_file argv)
          (k + 1) (<[db_file argv := c ++ zeroPage]> files) []).
  rewrite close_open_stream, close_closed. reflexivity.
Qed.

(** X22. On a path that names no file, with no request failing, the program
    creates the file, reports page count 1, page number 1 and new page
    count 2 on [std::cout], writes nothing to [std::cerr], exits with
    status 0, and leaves a file of two pages: the header page and a page of
    zeros.  Without [argv[1]] the path is [tinydb_test.db]. *)
Theorem main_creates_two_pages (e : endianness) (newPage : Z) (argv : list string)
    (w : World) :
  fs w !! db_file argv = None ->
  faults w = [] ->
  main e newPage argv w =
  mk_run 0 (success_report (db_file argv) 1) ""
    (mk_World (<[db_file argv := header_page e ++ zeroPage]> (fs w)) []).
Proof.
  destruct w as [files fl]. simpl. intros Hnone ->.
  rewrite (main_on_pages e newPage argv files (header_page e) PAGE_SIZE 1).
  - reflexivity.
  - apply (open_creates e _ 0 goodbit "" 0 files Hnone).
  - rewrite length_header_page, PAGE_BYTES_eq. reflexivity.
  - lia.
Qed.

Lemma main_creates_two_pages_witness :
  (fs (mk_World ∅ []) !! db_file ["tinydb"] = None /\ faults (mk_World ∅ []) = []) /\
  main LittleEndian 0 ["tinydb"] (mk_World ∅ []) =
  mk_run 0
    ("Database file 'tinydb_test.db' opened successfully." +:+ newline +:+
     "Current page count: 1" +:+ newline +:+
     "Allocated fresh page number: 1" +:+ newline +:+
     "New page count after allocation: 2" +:+ newline +:+
     "Database closed." +:+ newline)
    ""
    (mk_World (<["tinydb_test.db" := header_page LittleEndian ++ zeroPage]> ∅) []).
Proof.
  split; [split; reflexivity|].
  apply (main_creates_two_pages LittleEndian 0 ["tinydb"] (mk_World ∅ []));
    reflexivity.
Defined.

(** X23. On an existing file of [k] whole pages, [k < 2^20], with no request
    failing, the program reports page count [k], page number [k] and new
    page count [k + 1], exits with status 0, and leaves the file with one
    page of zeros appended. *)
Theorem main_appends_one_page (e : endianness) (newPage : Z) (argv : list string)
    (w : World) (c : list byte) (k : Z) :
  fs w !! db_file argv = Some c ->
  faults w = [] ->
  Z.of_nat (length c) = PAGE_SIZE * k ->
  k < 2 ^ 20 ->
  main e newPage argv w =
  mk_run 0 (success_report (db_file argv) k) ""
    (mk_World (<[db_file argv := c ++ zeroPage]> (fs w)) []).
Proof.
  destruct w as [files fl]. simpl. intros Hc -> Hlen Hk.
  assert (Hk0 : 0 <= k) by (unfold PAGE_SIZE in Hlen; lia).
  rewrite (main_on_pages e newPage argv files c (Z.of_nat (length c)) k).
  - reflexivity.
  - rewrite (insert_id files _ c Hc).
    apply (reopen_in_order e _ 0 goodbit "" 0 k files c Hc Hlen). lia.
  - exact Hlen.
  - lia.
Qed.

Lemma main_appends_one_page_witness :
  (fs (mk_World foreign_file []) !! db_file ["tinydb"; "x.db"] = Some pattern_AA /\
   Z.of_nat (length pattern_AA) = PAGE_SIZE * 1) /\
  main LittleEndian 0 ["tinydb"; "x.db"] (mk_World foreign_file []) =
  mk_run 0
    ("Database file 'x.db' opened successfully." +:+ newline +:+
     "Current page count: 1" +:+ newline +:+
     "Allocated fresh page number: 1" +:+ newline +:+
     "New page count after allocation: 2" +:+ newline +:+
     "Database closed." +:+ newline)
    ""
    (mk_World (<["x.db" := pattern_AA ++ zeroPage]> foreign_file) []).
Proof.
  split; [split; reflexivity|].
  apply (main_appends_one_page LittleEndian 0 ["tinydb"; "x.db"]
           (mk_World foreign_file []) pattern_AA 1); reflexivity.
Defined.

(** X24. On a file whose size is not a multiple of 4096, with no request
    failing, the program writes the failure of [open] to [std::cerr] and
    nothing to [std::cout], exits with status 1, and leaves the world as it
    found it. *)
Theorem main_rejects_partial_page (e : endianness) (newPage : Z) (argv : list string)
    (w : World) (c : list byte) :
  fs w !! db_file argv = Some c ->
  faults w = [] ->
  Z.of_nat (length c) mod PAGE_SIZE <> 0 ->
  main e newPage argv w = mk_run 1 "" (open_failure_report (db_file argv)) w.
Proof.
  destruct w as [files fl]. simpl. intros Hc -> Hmod.
  unfold main, StorageManager_default. fold (db_file argv).
  rewrite (open_bad_size e _ 0 goodbit "" 0 files c Hc Hmod).
  change (bool_decide (FILE_IO_ERROR = SUCCESS)) with false. cbn [negb].
  rewrite close_open_stream. reflexivity.
Qed.

Lemma main_rejects_partial_page_witness :
  (fs (mk_World one_byte_file []) !! db_file ["tinydb"; "t.db"] = Some [x2a] /\
   Z.of_nat (length [x2a]) mod PAGE_SIZE <> 0) /\
  main LittleEndian 0 ["tinydb"; "t.db"] (mk_World one_byte_file []) =
  mk_run 1 ""
    ("Failed to open/create database 't.db': File I/O error" +:+ newline)
    (mk_World one_byte_file []).
Proof.
  assert (H : Z.of_nat (length [x2a]) mod PAGE_SIZE <> 0) by (vm_compute; discriminate).
  split; [split; [reflexivity | exact H]|].
  apply (main_rejects_partial_page LittleEndian 0 ["tinydb"; "t.db"]
           (mk_World one_byte_file []) [x2a]); [reflexivity | reflexivity | exact H].
Defined.

(** *** The program, whatever happens *)

Lemma allocatePage_ignores_argument (x y : Z) (s : State) :
  fst (fst (allocatePage x s)) = fst (fst (allocatePage y s)) /\
  snd (allocatePage x s) = snd (allocatePage y s) /\
  (fst (fst (allocatePage x s)) = SUCCESS ->
   snd (fst (allocatePage x s)) = snd (fst (allocatePage y s))).
Proof.
  destruct s as [[[a pos st] fn pc] [files fl]]. destruct a as [p|].
  - set (s0 := mk_State (mk_StorageManager (mk_fstream (Some p) pos st) fn pc)
                 (mk_World files fl)).
    unfold allocatePage, bind, writeZeroPage.
    change (ios.is_open s0) with (true, s0). cbv beta iota.
    cbv beta iota delta [negb get_pageCount set_pageCount ret s0
                         self world file filename pageCount assoc fs].
    destruct (writePage pc (Some zeroPage) _) as [rc s']. repeat split.
  - unfold_model. cbn [fst snd]. repeat split. discriminate.
Qed.

(** X25. The page number [main] declares without a value is never read: the
    run is the same whatever that variable holds, in every world. *)
Theorem main_never_reads_uninitialised_page_number (e : endianness) (x y : Z)
    (argv : list string) (w : World) :
  main e x argv w = main e y argv w.
Proof.
  unfold main.
  destruct (open e _ _) as [rc s].
  destruct (negb (bool_decide (rc = SUCCESS))); [reflexivity|].
  destruct (getPageCount s) as [count s1].
  destruct (allocatePage_ignores_argument x y s1) as (Hrc & Hs & Hn).
  destruct (allocatePage x s1) as [[rc1 n1] s2].
  destruct (allocatePage y s1) as [[rc2 n2] s3].
  cbn [fst snd] in Hrc, Hs, Hn. subst rc2 s3.
  destruct (bool_decide (rc1 = SUCCESS)) eqn:E; cbn [negb]; [|reflexivity].
  apply bool_decide_eq_true in E. rewrite (Hn E). reflexivity.
Qed.

Lemma close_effect (s : State) :
  fs (world (snd (close s))) = fs (world s) /\
  assoc (file (self (snd (close s)))) = None.
Proof. explore_from s; repeat split. Qed.

Lemma open_from_closed e fname s :
  assoc (file (self s)) = None ->
  opening fname (fs (world s)) (snd (open e fname s)).
Proof.
  intros Ha. unfold open. rewrite bind_run.
  match goal with
  | |- opening _ _ (snd (?rest ?s1)) =>
      enough (Hk : keeps (opening fname (fs (world s))) rest)
        by (apply Hk; repeat split; auto)
  end.
  frame_keeps opening_base.
Qed.

Lemma append_not_empty (c : ascii) (a b : string) : String c a +:+ b <> "".
Proof. discriminate. Qed.

(** X26. In every world, whichever requests fail, a run of [main] changes no
    file other than the one it is given, and it exits with status 0 and
    nothing on [std::cerr], or with status 1 and a message on
    [std::cerr]. *)
Theorem main_touches_only_db_file (e : endianness) (newPage : Z)
    (argv : list string) (w : World) :
  let r := main e newPage argv w in
  (forall q, q <> db_file argv -> fs (world_after r) !! q = fs w !! q) /\
  (exit_status r = 0 /\ cerr r = "" \/ exit_status r = 1 /\ cerr r <> "").
Proof.
  cbv zeta. unfold main. fold (db_file argv).
  pose proof (open_from_closed e (db_file argv)
                (mk_State StorageManager_default w) eq_refl) as Hop.
  destruct (open e _ _) as [rc s]. cbn [snd world] in Hop.
  destruct Hop as (Hfs & _ & Ha).
  destruct (negb (bool_decide (rc = SUCCESS))).
  - pose proof (close_effect s) as (Hc & _).
    destruct (close s) as [u s']. cbn [snd world_after exit_status cerr] in *.
    split; [intros q Hq; rewrite Hc; apply Hfs; exact Hq|].
    right. split; [reflexivity | apply append_not_empty].
  - unfold getPageCount, get_pageCount.
    pose proof (allocatePage_effect newPage s) as (_ & _ & Hfa & Haa).
    cbv zeta in Hfa, Haa.
    destruct (allocatePage newPage s) as [[rc1 n1] s1]. cbn [fst snd] in Hfa, Haa.
    assert (Hfs1 : forall q, q <> db_file argv -> fs (world s1) !! q = fs w !! q).
    { intros q Hq. rewrite Hfa; [apply Hfs; exact Hq|].
      destruct Ha as [-> | ->]; congruence. }
    pose proof (close_effect s1) as (Hc1 & _).
    destruct (close s1) as [u1 s2]. cbn [snd] in Hc1.
    pose proof (close_effect s2) as (Hc2 & _).
    destruct (close s2) as [u2 s3]. cbn [snd] in Hc2.
    destruct (negb (bool_decide (rc1 = SUCCESS)));
      cbn [world_after exit_status cerr].
    + split; [intros q Hq; rewrite Hc2, Hc1; apply Hfs1; exact Hq|].
      right. split; [reflexivity | apply append_not_empty].
    + split; [intros q Hq; rewrite Hc2, Hc1; apply Hfs1; exact Hq|].
      left. split; reflexivity.
Qed.

(** *** The program run again and again *)

Lemma zero_pages_S j : zero_pages j ++ zeroPage = zero_pages (S j).
Proof.
  unfold zero_pages, zeroPage. rewrite <- replicate_add.
  f_equal. lia.
Qed.

Lemma length_zero_pages j : length (zero_pages j) = (j * PAGE_BYTES)%nat.
Proof. apply length_replicate. Qed.

Lemma main_n_existing e newPage argv files n :
  forall j, Z.of_nat j + Z.of_nat n < 2 ^ 20 ->
  main_n e n newPage argv
    (mk_World (<[db_file argv := header_page e ++ zero_pages j]> files) []) =
  map (nth_run e argv files) (seq j n).
Proof.
  induction n as [|n IH]; intros j Hj; [reflexivity|].
  cbn [main_n seq map].
  rewrite (main_on_pages e newPage argv
             (<[db_file argv := header_page e ++ zero_pages j]> files)
             (header_page e ++ zero_pages j)
             (Z.of_nat (length (header_page e ++ zero_pages j)))
             (Z.of_nat j + 1)).
  - cbn [world_after]. rewrite insert_insert_eq, <- app_assoc, zero_pages_S.
    rewrite (IH (S j)) by lia. reflexivity.
  - rewrite insert_insert_eq.
    apply (reopen_in_order e _ 0 goodbit "" 0); [apply lookup_insert_eq| |lia].
    rewrite length_app, length_header_page, length_zero_pages.
    unfold PAGE_BYTES, PAGE_SIZE. lia.
  - rewrite length_app, length_header_page, length_zero_pages.
    unfold PAGE_BYTES, PAGE_SIZE. lia.
  - lia.
Qed.

(** X27. The program run [n] times in a row, [n < 2^20], on a path that names
    no file and with no request failing: every run exits with status 0, the
    [i]-th run (from 0) reports page count [i + 1], page number [i + 1] and
    new page count [i + 2], and leaves the header page followed by [i + 1]
    pages of zeros. *)
Theorem main_n_adds_a_page_each_run (e : endianness) (n : nat) (newPage : Z)
    (argv : list string) (w : World) :
  fs w !! db_file argv = None ->
  faults w = [] ->
  Z.of_nat n < 2 ^ 20 ->
  main_n e n newPage argv w = map (nth_run e argv (fs w)) (seq 0 n).
Proof.
  destruct w as [files fl]. simpl fs. simpl faults. intros Hnone -> Hn.
  destruct n as [|n]; [reflexivity|].
  cbn [main_n seq map].
  rewrite (main_on_pages e newPage argv files (header_page e) PAGE_SIZE 1).
  - cbn [world_after].
    replace (header_page e ++ zeroPage) with (header_page e ++ zero_pages 1)
      by (unfold zero_pages; rewrite Nat.mul_1_l; reflexivity).
    rewrite (main_n_existing e newPage argv files n 1) by lia. reflexivity.
  - apply (open_creates e _ 0 goodbit "" 0 files Hnone).
  - rewrite length_header_page, PAGE_BYTES_eq. reflexivity.
  - lia.
Qed.

Lemma main_n_adds_a_page_each_run_witness :
  (fs (mk_World ∅ []) !! db_file ["tinydb"; "a.db"] = None /\
   faults (mk_World ∅ []) = [] /\ Z.of_nat 3 < 2 ^ 20) /\
  main_n LittleEndian 3 0 ["tinydb"; "a.db"] (mk_World ∅ []) =
  map (nth_run LittleEndian ["tinydb"; "a.db"] ∅) [0; 1; 2]%nat.
Proof.
  split; [repeat split|].
  apply (main_n_adds_a_page_each_run LittleEndian 3 0 ["tinydb"; "a.db"]
           (mk_World ∅ [])); reflexivity.
Defined.

(** *** The packed structures *)

(** X28. The four compile-time checks hold, and every packed structure of the
    file, also the four that are not checked, fits in a page. *)
Theorem packed_structs_fit_a_page :
  static_asserts = true /\
  Forall (fun t => Layout.sizeof t <= PAGE_SIZE) packed_structs.
Proof.
  split; [reflexivity|].
  unfold packed_structs. repeat constructor; vm_compute; discriminate.
Qed.

(** *** Instances *)

Lemma trim_empty_iff_whitespace_witness : whitespace "  " /\ trim "  " = "".
Proof.
  assert (H : whitespace "  ") by (repeat constructor).
  split; [exact H|].
  apply (proj2 (trim_empty_iff_whitespace "  ")). exact H.
Defined.

Lemma writePage_touches_only_open_file_witness :
  assoc (file (self scenario_store)) <> Some "other.db" /\
  fs (world (snd (writePage 1 (Some pattern_AA) scenario_store))) !! "other.db" =
    fs (world scenario_store) !! "other.db".
Proof.
  assert (H : assoc (file (self scenario_store)) <> Some "other.db")
    by (vm_compute; discriminate).
  split; [exact H|].
  apply (proj1 (writePage_touches_only_open_file 1 (Some pattern_AA) scenario_store)).
  exact H.
Defined.

Lemma main_touches_only_db_file_witness :
  "t.db" <> db_file ["tinydb"; "a.db"] /\
  fs (world_after (main LittleEndian 0 ["tinydb"; "a.db"] (mk_World one_byte_file [])))
    !! "t.db" = fs (mk_World one_byte_file []) !! "t.db".
Proof.
  assert (H : "t.db" <> db_file ["tinydb"; "a.db"]) by (vm_compute; discriminate).
  split; [exact H|].
  apply (proj1 (main_touches_only_db_file LittleEndian 0 ["tinydb"; "a.db"]
                  (mk_World one_byte_file []))).
  exact H.
Defined.
